(** * nws_exporter: the scrape loop of [main.go]

    The exporter polls the National Weather Service for one station, copies
    the readings of the latest observation into Prometheus gauges, and sleeps
    a fixed interval before polling again.  This development embeds the
    scrape loop (the goroutine started by [main], lines 103-177 of [main.go])
    and states its behaviour cycle by cycle.

    Conventions of the embedding.
    - The gauges are process-wide mutable objects in the source; here they
      are the fields of a [MetricSet] value threaded through the loop.
    - What the loop does to the outside world (log lines, sleeps, process
      exit) is recorded as a list of [Event]s, in program order.
    - What the outside world hands to the loop (the result of each fetch,
      the readings of the wall clock) is the input of a cycle, a [Tick].
    - The loop never returns; [scrapeLoop] runs it over a finite prefix of
      its inputs, so a statement about [scrapeLoop] is a statement about
      every finite prefix of every run. *)

From Stdlib Require Import ZArith QArith Qround Lqa Lia.
From Stdlib Require Floats Uint63.
From stdpp Require Import base option list strings gmap.

Local Open Scope Z_scope.

(** ** The compass helper *)

Module Cardinal.

(** Modelled from the spec: the [round] of the mapping, which the spec does
    not define further.  It is rounding to the nearest integer, a tie going
    to the integer above; on the non-negative values, where compass bearings
    lie, this is also rounding half away from zero, see [round_away]. *)
Definition round (x : Q) : Z := Qfloor (x + (1 # 2)).

(** Modelled from the spec: the eight compass labels, bucket 0 first. *)
Definition directions : list string :=
  ["N"; "NE"; "E"; "SE"; "S"; "SW"; "W"; "NW"]%string.

(** Modelled from the spec: the body of [CardinalDirection] is not part of
    [main.go].  The spec gives it as: a degree value [d] maps to bucket
    [round(d / 45) mod 8], bucket 0 = N, 1 = NE, 2 = E, 3 = SE, 4 = S,
    5 = SW, 6 = W, 7 = NW. *)
Definition bucket (d : Q) : Z := round (d / 45) mod 8.

(** Modelled from the spec: the label of the bucket, read from the table by
    index.  An index outside the table (a run-time panic in Go) is [None]. *)
Definition CardinalDirection (d : Q) : option string :=
  if bucket d <? 0 then None else directions !! Z.to_nat (bucket d).

(** The arc of bucket [k]: 45 degrees wide, centred on [45 * k]. *)
Definition arc (k : Z) (d : Q) : Prop :=
  (inject_Z (45 * k) - (45 # 2) <= d)%Q /\ (d < inject_Z (45 * k) + (45 # 2))%Q.

(** Rounding half away from zero, which is what Go's [math.Round] computes
    on finite inputs; kept for comparison with [round]. *)
Definition round_away (x : Q) : Z :=
  if Qle_bool 0 x then Qfloor (x + (1 # 2)) else Qceiling (x - (1 # 2)).

End Cardinal.

(** ** What the loop takes from outside [main.go]

    The loop copies [float64] readings without computing on them, reads the
    wall clock through the [time] package, and labels a wind direction with
    [CardinalDirection], whose body is in another file.  These are the
    parameters of the embedding. *)

Class Externals := {
  (** the type of a reading and of a gauge value *)
  float64 : Type;
  (** [time.Time] *)
  Time : Type;
  (** [Since_Seconds now t]: the value of [time.Since(t).Seconds()] when the
      wall clock reads [now] *)
  Since_Seconds : Time -> Time -> float64;
  (** [Time_Add t d]: the value of [t.Add(d)], [d] a [time.Duration] *)
  Time_Add : Time -> Z -> Time;
  (** the compass label of a wind direction in degrees, for the calls of
      [CardinalDirection] that return *)
  CardinalDirection : float64 -> string;
}.

(** ** Durations *)

(** [time.Duration] is an [int64] count of nanoseconds. *)
Definition wrap64 (z : Z) : Z := (z + 2 ^ 63) mod 2 ^ 64 - 2 ^ 63.

(** [time.Second] *)
Definition Second : Z := 1000000000.

(** ** The [time] package, as far as line 122 uses it

    [time.Since(t).Seconds()] with [t] a time without monotonic reading (the
    timestamp comes out of the decoded response) is [time.Now().Sub(t)]
    turned into seconds.  An instant is its count of nanoseconds on the wall
    clock; a [float64] is a binary64 float of the kernel. *)

Module GoTime.

(** The least and the greatest [time.Duration]. *)
Definition minDuration : Z := - 2 ^ 63.
Definition maxDuration : Z := 2 ^ 63 - 1.

(** [t.Sub(u)]: the duration [t - u]; when it exceeds what a [Duration]
    stores, the greatest (or the least) duration. *)
Definition Sub (t u : Z) : Z :=
  if t - u <? minDuration then minDuration
  else if maxDuration <? t - u then maxDuration
  else t - u.

(** The conversion [float64(n)] of an integer [n] with [|n| < 2^63]: the
    nearest binary64 float. *)
Definition float64_of_int64 (n : Z) : PrimFloat.float :=
  if n <? 0 then PrimFloat.opp (PrimFloat.of_uint63 (Uint63.of_Z (- n)))
  else PrimFloat.of_uint63 (Uint63.of_Z n).

(** [d.Seconds()]: [sec := d / Second; nsec := d % Second;
    return float64(sec) + float64(nsec)/1e9], with Go's truncating division. *)
Definition Seconds (d : Z) : PrimFloat.float :=
  PrimFloat.add (float64_of_int64 (Z.quot d Second))
    (PrimFloat.div (float64_of_int64 (Z.rem d Second))
       (float64_of_int64 1000000000)).

End GoTime.

(** ** Configuration: the flags of [init] *)

Record Config := {
  station : string;
  address : string;
  localaddr : string;
  verbose : bool;
  timeout : Z;
  backofftime : Z;
  failfast : bool;
}.

(** [time.Duration(backofftime) * time.Second], the argument of both calls of
    [time.Sleep] (lines 114 and 175) and of [Add] (lines 113 and 172). *)
Definition backoffseconds (cfg : Config) : Z :=
  wrap64 (backofftime cfg * Second).

(** The same configuration with another [verbose] flag. *)
Definition with_verbose (b : bool) (cfg : Config) : Config :=
  {| station := station cfg; address := address cfg;
     localaddr := localaddr cfg; verbose := b; timeout := timeout cfg;
     backofftime := backofftime cfg; failfast := failfast cfg |}.

(** ** The observation returned by a fetch *)

Section Model.
Context `{Ext : Externals}.

(** The struct types of the response are declared outside [main.go]; the
    fields below are the ones [main.go] reads.

    A reading: a struct reached through a pointer, whose [Value] is itself a
    pointer to a [float64].  [None] is the nil pointer. *)
Record Measurement := { Value : option float64 }.

Record ObservationProperties := {
  Timestamp : Time;
  RelativeHumidity : option Measurement;
  Temperature : option Measurement;
  Dewpoint : option Measurement;
  WindDirection : option Measurement;
  WindSpeed : option Measurement;
  BarometricPressure : option Measurement;
  SeaLevelPressure : option Measurement;
  Visibility : option Measurement;
}.

Record Observation := { Properties : ObservationProperties }.

(** The guard [f != nil && f.Value != nil] and, when it holds, [*f.Value]. *)
Definition present (f : option Measurement) : option float64 :=
  match f with
  | Some r => Value r
  | None => None
  end.

(** The eight readings, in the order the loop examines them. *)
Inductive Field :=
| FRelativeHumidity | FTemperature | FDewpoint | FWindDirection
| FWindSpeed | FBarometricPressure | FSeaLevelPressure | FVisibility.

Definition fieldOrder : list Field :=
  [FRelativeHumidity; FTemperature; FDewpoint; FWindDirection;
   FWindSpeed; FBarometricPressure; FSeaLevelPressure; FVisibility].

(** The name appended to [missingProperties] for a reading. *)
Definition fieldName (F : Field) : string :=
  match F with
  | FRelativeHumidity => "RelativeHumidity"
  | FTemperature => "Temperature"
  | FDewpoint => "Dewpoint"
  | FWindDirection => "WindDirection"
  | FWindSpeed => "WindSpeed"
  | FBarometricPressure => "BarometricPressure"
  | FSeaLevelPressure => "SeaLevelPressure"
  | FVisibility => "Visibility"
  end.

Definition field (F : Field) (p : ObservationProperties) : option Measurement :=
  match F with
  | FRelativeHumidity => RelativeHumidity p
  | FTemperature => Temperature p
  | FDewpoint => Dewpoint p
  | FWindDirection => WindDirection p
  | FWindSpeed => WindSpeed p
  | FBarometricPressure => BarometricPressure p
  | FSeaLevelPressure => SeaLevelPressure p
  | FVisibility => Visibility p
  end.

(** ** The gauges *)

(** One field per registered collector.  A [Gauge] holds one value; the
    [GaugeVec] [winddirection] holds one value per label it was ever asked
    for ([WithLabelValues] creates the child on first use). *)
Record MetricSet := {
  humidity : float64;
  temperature : float64;
  dewpoint : float64;
  winddirection : gmap string float64;
  windspeed : float64;
  barometricpressure : float64;
  sealevelpressure : float64;
  visibility : float64;
  timeSinceUpdate : float64;
}.

(** [g.Set(v)] for each collector. *)
Definition Set_humidity (v : float64) (m : MetricSet) : MetricSet :=
  Build_MetricSet v (temperature m) (dewpoint m) (winddirection m)
    (windspeed m) (barometricpressure m) (sealevelpressure m) (visibility m)
    (timeSinceUpdate m).

Definition Set_temperature (v : float64) (m : MetricSet) : MetricSet :=
  Build_MetricSet (humidity m) v (dewpoint m) (winddirection m)
    (windspeed m) (barometricpressure m) (sealevelpressure m) (visibility m)
    (timeSinceUpdate m).

Definition Set_dewpoint (v : float64) (m : MetricSet) : MetricSet :=
  Build_MetricSet (humidity m) (temperature m) v (winddirection m)
    (windspeed m) (barometricpressure m) (sealevelpressure m) (visibility m)
    (timeSinceUpdate m).

(** [winddirection.WithLabelValues(l).Set(v)] *)
Definition Set_winddirection (l : string) (v : float64) (m : MetricSet)
  : MetricSet :=
  Build_MetricSet (humidity m) (temperature m) (dewpoint m)
    (<[l := v]> (winddirection m))
    (windspeed m) (barometricpressure m) (sealevelpressure m) (visibility m)
    (timeSinceUpdate m).

Definition Set_windspeed (v : float64) (m : MetricSet) : MetricSet :=
  Build_MetricSet (humidity m) (temperature m) (dewpoint m) (winddirection m)
    v (barometricpressure m) (sealevelpressure m) (visibility m)
    (timeSinceUpdate m).

Definition Set_barometricpressure (v : float64) (m : MetricSet) : MetricSet :=
  Build_MetricSet (humidity m) (temperature m) (dewpoint m) (winddirection m)
    (windspeed m) v (sealevelpressure m) (visibility m) (timeSinceUpdate m).

Definition Set_sealevelpressure (v : float64) (m : MetricSet) : MetricSet :=
  Build_MetricSet (humidity m) (temperature m) (dewpoint m) (winddirection m)
    (windspeed m) (barometricpressure m) v (visibility m) (timeSinceUpdate m).

Definition Set_visibility (v : float64) (m : MetricSet) : MetricSet :=
  Build_MetricSet (humidity m) (temperature m) (dewpoint m) (winddirection m)
    (windspeed m) (barometricpressure m) (sealevelpressure m) v
    (timeSinceUpdate m).

Definition Set_timeSinceUpdate (v : float64) (m : MetricSet) : MetricSet :=
  Build_MetricSet (humidity m) (temperature m) (dewpoint m) (winddirection m)
    (windspeed m) (barometricpressure m) (sealevelpressure m) (visibility m) v.

(** ** Publishing (lines 122-166) *)

(** One [if ... else] of the publishing block: set the gauge when the reading
    is there, append its name to [missingProperties] when it is not. *)
Definition setIfPresent (name : string)
    (set : float64 -> MetricSet -> MetricSet) (f : option Measurement)
    (st : MetricSet * list string) : MetricSet * list string :=
  match present f with
  | Some v => (set v (fst st), snd st)
  | None => (fst st, snd st ++ [name])
  end.

(** The publishing block: [timeSinceUpdate] first, then the eight readings in
    source order.  The result is the gauges and [missingProperties]. *)
Definition publish (now : Time) (response : Observation) (m : MetricSet)
  : MetricSet * list string :=
  let p := Properties response in
  let st := (Set_timeSinceUpdate (Since_Seconds now (Timestamp p)) m, []) in
  let st := setIfPresent "RelativeHumidity" Set_humidity (RelativeHumidity p) st in
  let st := setIfPresent "Temperature" Set_temperature (Temperature p) st in
  let st := setIfPresent "Dewpoint" Set_dewpoint (Dewpoint p) st in
  let st := setIfPresent "WindDirection"
              (fun v => Set_winddirection (CardinalDirection v) v)
              (WindDirection p) st in
  let st := setIfPresent "WindSpeed" Set_windspeed (WindSpeed p) st in
  let st := setIfPresent "BarometricPressure" Set_barometricpressure
              (BarometricPressure p) st in
  let st := setIfPresent "SeaLevelPressure" Set_sealevelpressure
              (SeaLevelPressure p) st in
  let st := setIfPresent "Visibility" Set_visibility (Visibility p) st in
  st.

(** The same block seen field by field, for statements that range over the
    eight readings. *)
Definition setGauge (F : Field) : float64 -> MetricSet -> MetricSet :=
  match F with
  | FRelativeHumidity => Set_humidity
  | FTemperature => Set_temperature
  | FDewpoint => Set_dewpoint
  | FWindDirection => fun v => Set_winddirection (CardinalDirection v) v
  | FWindSpeed => Set_windspeed
  | FBarometricPressure => Set_barometricpressure
  | FSeaLevelPressure => Set_sealevelpressure
  | FVisibility => Set_visibility
  end.

Definition publishField (p : ObservationProperties)
    (st : MetricSet * list string) (F : Field) : MetricSet * list string :=
  setIfPresent (fieldName F) (setGauge F) (field F p) st.

(** What a collector exposes: one value, or one value per label. *)
Inductive Reading :=
| Plain (v : float64)
| Labelled (vs : gmap string float64).

(** The collector that belongs to a reading of the observation. *)
Definition gauge (F : Field) (m : MetricSet) : Reading :=
  match F with
  | FRelativeHumidity => Plain (humidity m)
  | FTemperature => Plain (temperature m)
  | FDewpoint => Plain (dewpoint m)
  | FWindDirection => Labelled (winddirection m)
  | FWindSpeed => Plain (windspeed m)
  | FBarometricPressure => Plain (barometricpressure m)
  | FSeaLevelPressure => Plain (sealevelpressure m)
  | FVisibility => Plain (visibility m)
  end.

(** The collector of [F] shows the value [v]: a plain gauge equals [v]; the
    wind direction family has [v] under the compass label of [v]. *)
Definition shows (F : Field) (v : float64) (m : MetricSet) : Prop :=
  match gauge F m with
  | Plain x => x = v
  | Labelled vs => vs !! CardinalDirection v = Some v
  end.

(** ** One cycle of the loop (lines 105-175) *)

(** The outcome of [RetrieveCurrentObservation]: an error, or the decoded
    observation with the raw body. *)
Inductive FetchResult :=
| FetchErr (err : string)
| FetchOk (response : Observation) (rawJSON : string).

(** The input of one cycle: the outcome of the fetch, and the first and the
    second reading of [time.Now()] taken after the fetch returned. *)
Record Tick := {
  fetched : FetchResult;
  clock1 : Time;
  clock2 : Time;
}.

(** The five formats the loop logs with, with their arguments. *)
Inductive LogLine :=
| LogFatalError (err : string)
| LogProblemRetrieving (address station err : string)
| LogWaiting (backofftime : Z) (next : Time)
| LogRawJSON (rawJSON : string)
| LogMissing (missingProperties : list string).

Inductive Event :=
| Printf (l : LogLine)
| Sleep (d : Z)
| Exit (code : Z).

(** Where the loop stands after a cycle: about to poll again, or gone with
    the process. *)
Inductive Phase := Polling | Terminated.

Record CycleResult := {
  metrics : MetricSet;
  (** [missingProperties] at the end of the publishing block; [None] when
      the cycle did not reach that block *)
  published : option (list string);
  events : list Event;
  phase : Phase;
}.

Definition cycle (cfg : Config) (t : Tick) (m : MetricSet) : CycleResult :=
  match fetched t with
  | FetchErr err =>
      if failfast cfg then
        {| metrics := m; published := None;
           events := [Printf (LogFatalError err); Exit 1];
           phase := Terminated |}
      else
        {| metrics := m; published := None;
           events :=
             [Printf (LogProblemRetrieving (address cfg) (station cfg) err);
              Printf (LogWaiting (backofftime cfg)
                        (Time_Add (clock1 t) (backoffseconds cfg)));
              Sleep (backoffseconds cfg)];
           phase := Polling |}
  | FetchOk response rawJSON =>
      let st := publish (clock1 t) response m in
      {| metrics := fst st; published := Some (snd st);
         events :=
           (if verbose cfg then [Printf (LogRawJSON rawJSON)] else [])
           ++ (if bool_decide (length (snd st) ≠ 0%nat)
               then [Printf (LogMissing (snd st))] else [])
           ++ (if verbose cfg
               then [Printf (LogWaiting (backofftime cfg)
                               (Time_Add (clock2 t) (backoffseconds cfg)))]
               else [])
           ++ [Sleep (backoffseconds cfg)];
         phase := Polling |}
  end.

(** ** The loop over a finite prefix of its inputs *)

Record Run := {
  final : MetricSet;
  trace : list Event;
  state : Phase;
}.

Fixpoint scrapeLoop (cfg : Config) (ticks : list Tick) (m : MetricSet) : Run :=
  match ticks with
  | [] => {| final := m; trace := []; state := Polling |}
  | t :: rest =>
      let r := cycle cfg t m in
      match phase r with
      | Terminated =>
          {| final := metrics r; trace := events r; state := Terminated |}
      | Polling =>
          let r' := scrapeLoop cfg rest (metrics r) in
          {| final := final r'; trace := events r ++ trace r';
             state := state r' |}
      end
  end.

(** The arguments of the calls of [time.Sleep] in a trace, in order. *)
Definition sleeps (tr : list Event) : list Z :=
  omap (fun e => match e with Sleep d => Some d | _ => None end) tr.

(** The lines logged in a trace, in order. *)
Definition logLines (tr : list Event) : list LogLine :=
  omap (fun e => match e with Printf l => Some l | _ => None end) tr.

(** The events of a trace that are not log lines. *)
Definition effects (tr : list Event) : list Event :=
  omap (fun e => match e with Printf _ => None | _ => Some e end) tr.

#[export] Instance Field_eq_dec : EqDecision Field.
Proof. solve_decision. Defined.

#[export] Instance fieldName_inj : Inj (=) (=) fieldName.
Proof. intros F G H. destruct F, G; (reflexivity || discriminate H). Qed.

End Model.

(** ** Runs, seen from outside *)

Section Runs.
Context `{Ext : Externals}.

(** Whether the fetch of a cycle returned an error (line 106). *)
Definition failed (t : Tick) : bool :=
  match fetched t with
  | FetchErr _ => true
  | FetchOk _ _ => false
  end.

(** The reading of [F] a cycle gets to publish: the one of the observation
    when the fetch succeeded and the reading is there. *)
Definition reported (F : Field) (t : Tick) : option float64 :=
  match fetched t with
  | FetchErr _ => None
  | FetchOk response _ => present (field F (Properties response))
  end.

(** ** [main] up to the scrape loop (lines 95-103) *)

(** The two lines logged at startup (lines 100 and 101). *)
Inductive StartupLine :=
| LogStartingUp (address station : string)
| LogServing (localaddr : string).

(** What [main] and the goroutine it starts do: [flag.Usage], a startup
    line, or an event of the scrape loop ([os.Exit] included). *)
Inductive MainEvent :=
| FlagUsage
| EmitStartup (l : StartupLine)
| Emit (e : Event).

(** [main], without the HTTP server it hands the main goroutine to: with
    [-help] it prints the usage and exits with status 1 (lines 95-98);
    otherwise it logs two lines (lines 100-101) and starts the scrape loop.
    The result is what was done, in order, and the gauges. *)
Definition main (help : bool) (cfg : Config) (ticks : list Tick)
    (m : MetricSet) : list MainEvent * MetricSet :=
  if help then ([FlagUsage; Emit (Exit 1)], m)
  else
    let r := scrapeLoop cfg ticks m in
    (EmitStartup (LogStartingUp (address cfg) (station cfg))
       :: EmitStartup (LogServing (localaddr cfg))
       :: (Emit <$> trace r),
     final r).

End Runs.

(** A concrete choice of the parameters, used by the examples about the
    readings: readings are exact rationals, a time is a count of
    nanoseconds, and the compass label is read from the table of
    [Cardinal].  The elapsed seconds are the duration of [GoTime.Sub] as an
    exact quotient; their rounding to a [float64] is in [goExt]. *)
Definition exactExt : Externals :=
  {| float64 := Q;
     Time := Z;
     Since_Seconds :=
       fun now t => (inject_Z (GoTime.Sub now t) / inject_Z Second)%Q;
     Time_Add := Z.add;
     CardinalDirection := fun d => default ""%string (Cardinal.CardinalDirection d) |}.

Section Concrete.
#[local] Existing Instance exactExt.

(** The flags at their defaults ([init]), and the same with [-failfast]. *)
Definition defaultConfig : Config :=
  {| station := "KPHL"; address := "api.weather.gov"; localaddr := ":8080";
     verbose := false; timeout := 10; backofftime := 100; failfast := false |}.

Definition failfastConfig : Config :=
  {| station := "KPHL"; address := "api.weather.gov"; localaddr := ":8080";
     verbose := false; timeout := 10; backofftime := 100; failfast := true |}.

(** A reading that is there. *)
Definition reading (v : Q) : option (@Measurement exactExt) :=
  Some {| Value := Some v |}.

(** An observation with all eight readings, one with the humidity pointer
    nil and the dewpoint value nil, and one with no reading at all. *)
Definition fullObservation : @Observation exactExt :=
  {| Properties :=
       {| Timestamp := 1000 * Second;
          RelativeHumidity := reading 48;
          Temperature := reading (43 # 2);
          Dewpoint := reading 10;
          WindDirection := reading 90;
          WindSpeed := reading 12;
          BarometricPressure := reading 101320;
          SeaLevelPressure := reading 101400;
          Visibility := reading 16090 |} |}.

Definition partialObservation : @Observation exactExt :=
  {| Properties :=
       {| Timestamp := 1000 * Second;
          RelativeHumidity := None;
          Temperature := reading (43 # 2);
          Dewpoint := Some {| Value := None |};
          WindDirection := reading 90;
          WindSpeed := reading 12;
          BarometricPressure := reading 101320;
          SeaLevelPressure := reading 101400;
          Visibility := reading 16090 |} |}.

Definition emptyObservation : @Observation exactExt :=
  {| Properties :=
       {| Timestamp := 1000 * Second;
          RelativeHumidity := None; Temperature := None; Dewpoint := None;
          WindDirection := None; WindSpeed := None;
          BarometricPressure := None; SeaLevelPressure := None;
          Visibility := None |} |}.

(** Gauges left by earlier cycles. *)
Definition staleMetrics : @MetricSet exactExt :=
  {| humidity := 55%Q; temperature := 19%Q; dewpoint := 9%Q;
     winddirection := {[ "N"%string := 10%Q ]};
     windspeed := 7%Q; barometricpressure := 101000%Q;
     sealevelpressure := 101100%Q; visibility := 9000%Q;
     timeSinceUpdate := 600%Q |}.

(** A cycle whose fetch succeeds, five seconds after the timestamp of the
    observations above, and a cycle whose fetch fails. *)
Definition okTick (response : @Observation exactExt) : @Tick exactExt :=
  {| fetched := FetchOk response "{}";
     clock1 := 1005 * Second; clock2 := 1005 * Second + 1 |}.

Definition errTick : @Tick exactExt :=
  {| fetched := FetchErr "timeout";
     clock1 := 1005 * Second; clock2 := 1005 * Second + 1 |}.

End Concrete.

(** The parameters with the [time] package and the floats of Go: a reading
    and a gauge value are binary64 floats, a time is its count of
    nanoseconds, and the elapsed seconds are [time.Since(t).Seconds()] as
    [GoTime] has it.  The compass helper stays a parameter. *)
Definition goExt (label : PrimFloat.float -> string) : Externals :=
  {| float64 := PrimFloat.float;
     Time := Z;
     Since_Seconds := fun now t => GoTime.Seconds (GoTime.Sub now t);
     Time_Add := Z.add;
     CardinalDirection := label |}.

Section ConcreteGo.

(** An observation with a timestamp and no reading, for which the compass
    helper is not called. *)
Definition bareObservation (label : PrimFloat.float -> string) (ts : Z)
  : @Observation (goExt label) :=
  @Build_Observation (goExt label)
    (@Build_ObservationProperties (goExt label) ts
       None None None None None None None None).

(** A cycle that fetches [bareObservation ts] while the clock reads [now]. *)
Definition bareTick (label : PrimFloat.float -> string) (ts now : Z)
  : @Tick (goExt label) :=
  @Build_Tick (goExt label) (FetchOk (bareObservation label ts) "{}") now now.

(** The gauges at process start: every gauge at zero, no labelled series. *)
Definition startMetrics (label : PrimFloat.float -> string)
  : @MetricSet (goExt label) :=
  @Build_MetricSet (goExt label)
    (GoTime.float64_of_int64 0) (GoTime.float64_of_int64 0)
    (GoTime.float64_of_int64 0) ∅
    (GoTime.float64_of_int64 0) (GoTime.float64_of_int64 0)
    (GoTime.float64_of_int64 0) (GoTime.float64_of_int64 0)
    (GoTime.float64_of_int64 0).

(** The compass helper of the examples that have no wind direction. *)
Definition anyLabel : PrimFloat.float -> string := fun _ => "N"%string.

(** The zero [time.Time] (January 1 of year 1, UTC), which a response
    without timestamp decodes to, and midnight of October 31, 2026 (UTC),
    both as nanoseconds since the Unix epoch. *)
Definition zeroTime : Z := -62135596800 * Second.
Definition someNow : Z := 1793404800 * Second.

End ConcreteGo.

(** * Properties of the compass helper *)

Section CardinalFacts.
Import Cardinal.

Lemma Qfloor_add_Z (x : Q) (n : Z) : Qfloor (x + inject_Z n) = Qfloor x + n.
Proof.
  destruct x as [a b]. unfold Qfloor, Qplus, inject_Z. simpl.
  rewrite !Z.mul_1_r, Pos.mul_1_r.
  apply Z.div_add. discriminate.
Qed.

Lemma Qfloor_spec (x : Q) (k : Z) :
  Qfloor x = k <-> (inject_Z k <= x)%Q /\ (x < inject_Z (k + 1))%Q.
Proof.
  split.
  - intros <-. split; [apply Qfloor_le | apply Qlt_floor].
  - intros [Hlo Hhi].
    apply Qfloor_resp_le in Hlo. rewrite Qfloor_Z in Hlo.
    assert (Hup : (inject_Z (Qfloor x) < inject_Z (k + 1))%Q)
      by (eapply Qle_lt_trans; [apply Qfloor_le | exact Hhi]).
    rewrite <- Zlt_Qlt in Hup. lia.
Qed.

Lemma round_add_Z (x : Q) (n : Z) : round (x + inject_Z n) = round x + n.
Proof.
  unfold round. rewrite <- Qfloor_add_Z. apply Qfloor_comp. ring.
Qed.

Lemma round_spec (x : Q) (k : Z) :
  round x = k <->
  (inject_Z k - (1 # 2) <= x)%Q /\ (x < inject_Z k + (1 # 2))%Q.
Proof.
  unfold round. rewrite Qfloor_spec, inject_Z_plus.
  change (inject_Z 1) with 1%Q. split; intros [? ?]; split; lra.
Qed.

Lemma round_away_nonneg (x : Q) : (0 <= x)%Q -> round_away x = round x.
Proof.
  intros Hx. unfold round_away, round.
  apply Qle_bool_iff in Hx. now rewrite Hx.
Qed.

Lemma bucket_range (d : Q) : 0 <= bucket d < 8.
Proof. unfold bucket. apply Z.mod_pos_bound. lia. Qed.

Lemma bucket_periodic (d : Q) : bucket (d + 360) = bucket d.
Proof.
  unfold bucket.
  assert (E : round ((d + 360) / 45) = round (d / 45) + 1 * 8).
  { rewrite <- round_add_Z. apply Qfloor_comp.
    change (inject_Z (1 * 8)) with 8%Q. field. }
  rewrite E. apply Z_mod_plus_full.
Qed.

Lemma CardinalDirection_lookup (d : Q) :
  CardinalDirection d = directions !! Z.to_nat (bucket d).
Proof.
  unfold CardinalDirection. pose proof (bucket_range d) as Hb.
  destruct (Z.ltb_spec (bucket d) 0); [lia | reflexivity].
Qed.

Lemma CardinalDirection_is_Some (d : Q) : is_Some (CardinalDirection d).
Proof.
  rewrite CardinalDirection_lookup. apply lookup_lt_is_Some.
  pose proof (bucket_range d). simpl. lia.
Qed.

Lemma arc_round (k : Z) (d : Q) : arc k d <-> round (d / 45) = k.
Proof.
  unfold arc. rewrite round_spec, inject_Z_mult.
  change (inject_Z 45) with 45%Q.
  assert (E : (d == d / 45 * 45)%Q) by field.
  split; intros [? ?]; split; lra.
Qed.

Lemma bucket_arcs (d : Q) (k : Z) :
  (0 <= d)%Q -> (d < 360)%Q -> 0 <= k < 8 ->
  bucket d = k <-> arc k d \/ arc k (d - 360).
Proof.
  intros Hlo Hhi Hk.
  assert (Hshift : round ((d - 360) / 45) = round (d / 45) + (-8)).
  { rewrite <- round_add_Z. apply Qfloor_comp.
    change (inject_Z (-8)) with (-8)%Q. field. }
  rewrite !arc_round, Hshift. unfold bucket.
  assert (Hr : 0 <= round (d / 45) <= 8).
  { destruct (proj1 (round_spec (d / 45) _) eq_refl) as [H1 H2].
    assert (E : (d == d / 45 * 45)%Q) by field.
    assert (G1 : (inject_Z (-1) < inject_Z (round (d / 45)))%Q)
      by (change (inject_Z (-1)) with (-1)%Q; lra).
    assert (G2 : (inject_Z (round (d / 45)) < inject_Z 9)%Q)
      by (change (inject_Z 9) with 9%Q; lra).
    rewrite <- Zlt_Qlt in G1, G2. lia. }
  split.
  - intros Hb. destruct (Z.eq_dec (round (d / 45)) 8) as [E8 | N8].
    + right. rewrite E8 in Hb |- *. change (8 mod 8) with 0 in Hb. lia.
    + left. rewrite Z.mod_small in Hb by lia. exact Hb.
  - intros [E | E].
    + rewrite E. apply Z.mod_small. lia.
    + replace (round (d / 45)) with (k + 1 * 8) by lia.
      rewrite Z_mod_plus_full. apply Z.mod_small. lia.
Qed.

(** C6. The compass mapping [d |-> round(d / 45) mod 8] is total (every
    degree value has a label, one of the eight of the table), periodic
    ([d] and [d + 360] have the same bucket and the same label), its eight
    buckets divide [[0, 360)] into the eight arcs of 45 degrees centred on
    the compass points (the arc of north wrapping around 360), and
    0, 90, 180 and 270 degrees are N, E, S and W. *)
Theorem cardinal_mapping_total_periodic :
  (forall d : Q, exists l : string,
      CardinalDirection d = Some l /\ l ∈ directions) /\
  (forall d : Q, bucket (d + 360) = bucket d /\
                 CardinalDirection (d + 360) = CardinalDirection d) /\
  (forall (d : Q) (k : Z), (0 <= d)%Q -> (d < 360)%Q -> 0 <= k < 8 ->
      bucket d = k <-> arc k d \/ arc k (d - 360)) /\
  (forall d : Q, (0 <= d)%Q -> (d < 360)%Q ->
      exists k : Z, 0 <= k < 8 /\ bucket d = k /\
        forall j : Z, 0 <= j < 8 -> arc j d \/ arc j (d - 360) -> j = k) /\
  CardinalDirection 0 = Some "N"%string /\
  CardinalDirection 90 = Some "E"%string /\
  CardinalDirection 180 = Some "S"%string /\
  CardinalDirection 270 = Some "W"%string.
Proof.
  split.
  { intros d. destruct (CardinalDirection_is_Some d) as [l Hl].
    exists l. split; [exact Hl |].
    rewrite CardinalDirection_lookup in Hl.
    eapply list_elem_of_lookup_2. exact Hl. }
  split.
  { intros d. split; [apply bucket_periodic |].
    rewrite !CardinalDirection_lookup. now rewrite bucket_periodic. }
  split; [exact bucket_arcs |].
  split.
  { intros d Hlo Hhi. exists (bucket d). pose proof (bucket_range d) as Hb.
    split; [exact Hb |]. split; [reflexivity |].
    intros j Hj Harc. symmetry. now apply bucket_arcs. }
  repeat split.
Qed.

End CardinalFacts.

(** * Properties of the scrape loop *)

Section Properties.
Context `{Ext : Externals}.
Implicit Types (m : MetricSet) (p : ObservationProperties) (F G : Field).
Implicit Types (st : MetricSet * list string) (cfg : Config) (t : Tick).

(** ** Setting one collector leaves the others alone *)

Lemma setGauge_shows F v m : shows F v (setGauge F v m).
Proof.
  destruct F; unfold shows; simpl; try reflexivity.
  apply lookup_insert_eq.
Qed.

Lemma setGauge_gauge_ne F G v m : F <> G -> gauge G (setGauge F v m) = gauge G m.
Proof. intros Hne. destruct F, G; (congruence || reflexivity). Qed.

Lemma setGauge_timeSinceUpdate F v m :
  timeSinceUpdate (setGauge F v m) = timeSinceUpdate m.
Proof. now destruct F. Qed.

Lemma shows_gauge F v m m' : gauge F m' = gauge F m -> shows F v m -> shows F v m'.
Proof. unfold shows. now intros ->. Qed.

Lemma fieldOrder_complete F : F ∈ fieldOrder.
Proof. unfold fieldOrder. destruct F; set_solver. Qed.

Lemma fieldOrder_NoDup : NoDup fieldOrder.
Proof. apply (bool_decide_unpack _). vm_compute. exact I. Qed.

(** ** The publishing block as a fold over the eight readings *)

Lemma publish_fold now response m :
  publish now response m =
  foldl (publishField (Properties response))
    (Set_timeSinceUpdate
       (Since_Seconds now (Timestamp (Properties response))) m, [])
    fieldOrder.
Proof. reflexivity. Qed.

Lemma publishField_present p st F v :
  present (field F p) = Some v ->
  publishField p st F = (setGauge F v (fst st), snd st).
Proof. unfold publishField, setIfPresent. now intros ->. Qed.

Lemma publishField_absent p st F :
  present (field F p) = None ->
  publishField p st F = (fst st, snd st ++ [fieldName F]).
Proof. unfold publishField, setIfPresent. now intros ->. Qed.

Lemma publishField_cases p st F :
  (exists v, present (field F p) = Some v /\
             publishField p st F = (setGauge F v (fst st), snd st)) \/
  (present (field F p) = None /\
   publishField p st F = (fst st, snd st ++ [fieldName F])).
Proof.
  destruct (present (field F p)) as [v |] eqn:E.
  - left. exists v. split; [reflexivity |]. now apply publishField_present.
  - right. split; [reflexivity |]. now apply publishField_absent.
Qed.

Lemma foldl_publishField_missing p (l : list Field) st :
  snd (foldl (publishField p) st l) =
  snd st ++ (fieldName <$> filter (fun F => present (field F p) = None) l).
Proof.
  revert st. induction l as [| F l IH]; intros st; simpl.
  - now rewrite app_nil_r.
  - rewrite IH. destruct (publishField_cases p st F) as [(v & E & ->) | (E & ->)].
    + rewrite filter_cons_False by congruence. reflexivity.
    + rewrite filter_cons_True by exact E. simpl. now rewrite <- app_assoc.
Qed.

Lemma foldl_publishField_timeSinceUpdate p (l : list Field) st :
  timeSinceUpdate (fst (foldl (publishField p) st l)) = timeSinceUpdate (fst st).
Proof.
  revert st. induction l as [| F l IH]; intros st; simpl; [reflexivity |].
  rewrite IH. destruct (publishField_cases p st F) as [(v & _ & ->) | (_ & ->)].
  - apply setGauge_timeSinceUpdate.
  - reflexivity.
Qed.

(** A reading that is absent leaves its collector as it was, whatever the
    other readings are. *)
Lemma foldl_publishField_absent p (l : list Field) st F :
  present (field F p) = None ->
  gauge F (fst (foldl (publishField p) st l)) = gauge F (fst st).
Proof.
  intros HF. revert st. induction l as [| G l IH]; intros st; simpl; [reflexivity |].
  rewrite IH. destruct (publishField_cases p st G) as [(v & E & ->) | (_ & ->)].
  - simpl. apply setGauge_gauge_ne. congruence.
  - reflexivity.
Qed.

(** A reading that is present is shown by its collector once its turn has
    come, and later turns do not disturb it. *)
Lemma foldl_publishField_present p (l : list Field) st F v :
  present (field F p) = Some v ->
  F ∈ l \/ shows F v (fst st) ->
  shows F v (fst (foldl (publishField p) st l)).
Proof.
  intros HF. revert st. induction l as [| G l IH]; intros st Hst; simpl.
  - destruct Hst as [Hin | Hs]; [| exact Hs]. now apply not_elem_of_nil in Hin.
  - apply IH. destruct (decide (G = F)) as [-> | Hne].
    + right. rewrite (publishField_present _ _ _ _ HF). apply setGauge_shows.
    + destruct Hst as [Hin | Hs].
      * left. apply elem_of_cons in Hin. destruct Hin; congruence.
      * right. destruct (publishField_cases p st G) as [(w & _ & ->) | (_ & ->)].
        -- simpl. eapply shows_gauge; [| exact Hs]. now apply setGauge_gauge_ne.
        -- exact Hs.
Qed.

(** ** Publishing, reading by reading *)

Lemma publish_present now response m F v :
  present (field F (Properties response)) = Some v ->
  shows F v (fst (publish now response m)).
Proof.
  intros HF. rewrite publish_fold.
  apply foldl_publishField_present; [exact HF |].
  left. apply fieldOrder_complete.
Qed.

Lemma publish_absent now response m F :
  present (field F (Properties response)) = None ->
  gauge F (fst (publish now response m)) = gauge F m.
Proof.
  intros HF. rewrite publish_fold.
  rewrite foldl_publishField_absent by exact HF. now destruct F.
Qed.

Lemma publish_missing now response m :
  snd (publish now response m) =
  fieldName <$>
    filter (fun F => present (field F (Properties response)) = None) fieldOrder.
Proof. rewrite publish_fold. now rewrite foldl_publishField_missing. Qed.

Lemma publish_timeSinceUpdate now response m :
  timeSinceUpdate (fst (publish now response m)) =
  Since_Seconds now (Timestamp (Properties response)).
Proof. rewrite publish_fold. now rewrite foldl_publishField_timeSinceUpdate. Qed.

Lemma foldl_publishField_other p (l : list Field) st F :
  F ∉ l -> gauge F (fst (foldl (publishField p) st l)) = gauge F (fst st).
Proof.
  revert st. induction l as [| G l IH]; intros st Hl; simpl; [reflexivity |].
  apply not_elem_of_cons in Hl as [Hne Hl]. rewrite IH by exact Hl.
  destruct (publishField_cases p st G) as [(v & _ & ->) | (_ & ->)];
    [| reflexivity].
  simpl. apply setGauge_gauge_ne. congruence.
Qed.

Lemma gauge_winddirection m m' :
  gauge FWindDirection m = gauge FWindDirection m' ->
  winddirection m = winddirection m'.
Proof. simpl. now intros [= ->]. Qed.

Lemma publish_winddirection_present now response m d :
  present (WindDirection (Properties response)) = Some d ->
  winddirection (fst (publish now response m)) =
  <[CardinalDirection d := d]> (winddirection m).
Proof.
  intros Hd. rewrite publish_fold.
  change fieldOrder with
    ([FRelativeHumidity; FTemperature; FDewpoint] ++ [FWindDirection] ++
     [FWindSpeed; FBarometricPressure; FSeaLevelPressure; FVisibility]).
  rewrite !foldl_app.
  rewrite (gauge_winddirection _ _
             (foldl_publishField_other _
                [FWindSpeed; FBarometricPressure; FSeaLevelPressure; FVisibility]
                _ FWindDirection
                ltac:(rewrite !not_elem_of_cons; repeat split;
                      (discriminate || apply not_elem_of_nil)))).
  pose proof (gauge_winddirection _ _
                (foldl_publishField_other (Properties response)
                   [FRelativeHumidity; FTemperature; FDewpoint]
                   (Set_timeSinceUpdate
                      (Since_Seconds now (Timestamp (Properties response))) m,
                    [])
                   FWindDirection
                   ltac:(rewrite !not_elem_of_cons; repeat split;
                         (discriminate || apply not_elem_of_nil)))) as HA.
  cbn [foldl] in HA |- *.
  rewrite (publishField_present _ _ FWindDirection _ Hd).
  cbn [fst setGauge Set_winddirection winddirection].
  now rewrite HA.
Qed.

(** ** A cycle whose fetch succeeded runs the publishing block *)

Lemma cycle_ok cfg t m response rawJSON :
  fetched t = FetchOk response rawJSON ->
  metrics (cycle cfg t m) = fst (publish (clock1 t) response m) /\
  published (cycle cfg t m) = Some (snd (publish (clock1 t) response m)) /\
  phase (cycle cfg t m) = Polling.
Proof. unfold cycle. now intros ->. Qed.

Lemma cycle_events_sleeps cfg t m :
  phase (cycle cfg t m) = Polling ->
  sleeps (events (cycle cfg t m)) = [backoffseconds cfg].
Proof.
  unfold cycle. destruct (fetched t) as [err | response rawJSON].
  - destruct (failfast cfg); [discriminate | reflexivity].
  - intros _. simpl. destruct (verbose cfg), (bool_decide _); reflexivity.
Qed.

Lemma cycle_events_sleeps_terminated cfg t m :
  phase (cycle cfg t m) = Terminated -> sleeps (events (cycle cfg t m)) = [].
Proof.
  unfold cycle. destruct (fetched t) as [err | response rawJSON].
  - destruct (failfast cfg); [reflexivity | discriminate].
  - discriminate.
Qed.

Lemma cycle_phase_retry cfg t m : failfast cfg = false -> phase (cycle cfg t m) = Polling.
Proof. unfold cycle. intros ->. now destruct (fetched t). Qed.

Lemma scrapeLoop_cons_Polling cfg t rest m :
  phase (cycle cfg t m) = Polling ->
  final (scrapeLoop cfg (t :: rest) m) =
    final (scrapeLoop cfg rest (metrics (cycle cfg t m))) /\
  trace (scrapeLoop cfg (t :: rest) m) =
    events (cycle cfg t m) ++ trace (scrapeLoop cfg rest (metrics (cycle cfg t m))) /\
  state (scrapeLoop cfg (t :: rest) m) =
    state (scrapeLoop cfg rest (metrics (cycle cfg t m))).
Proof. simpl. now intros ->. Qed.

Lemma sleeps_app (tr1 tr2 : list Event) : sleeps (tr1 ++ tr2) = sleeps tr1 ++ sleeps tr2.
Proof. apply omap_app. Qed.

Lemma scrapeLoop_sleeps cfg (ticks : list Tick) m :
  exists n : nat, (n <= length ticks)%nat /\
    sleeps (trace (scrapeLoop cfg ticks m)) = replicate n (backoffseconds cfg) /\
    (state (scrapeLoop cfg ticks m) = Polling -> n = length ticks).
Proof.
  revert m. induction ticks as [| t rest IH]; intros m.
  - exists 0%nat. simpl. auto.
  - destruct (phase (cycle cfg t m)) eqn:E.
    + destruct (scrapeLoop_cons_Polling cfg t rest m E) as (_ & -> & ->).
      destruct (IH (metrics (cycle cfg t m))) as (n & Hn & Hs & Hp).
      exists (S n). rewrite sleeps_app, cycle_events_sleeps, Hs by exact E.
      simpl. repeat split; [lia | auto].
    + exists 0%nat. simpl. rewrite E. simpl.
      rewrite cycle_events_sleeps_terminated by exact E.
      repeat split; [lia | discriminate].
Qed.

Lemma scrapeLoop_retry_state cfg (ticks : list Tick) m :
  failfast cfg = false -> state (scrapeLoop cfg ticks m) = Polling.
Proof.
  intros Hff. revert m. induction ticks as [| t rest IH]; intros m; [reflexivity |].
  destruct (scrapeLoop_cons_Polling cfg t rest m (cycle_phase_retry cfg t m Hff))
    as (_ & _ & ->).
  apply IH.
Qed.

(** ** The publishing cycle *)

(** C1. When the fetch succeeds and all eight readings of the observation
    are present (pointer and inner value both non-nil), then after the cycle
    every gauge equals its reading; for the wind direction, the gauge of the
    family under the compass label of the reading equals the reading. *)
Theorem cycle_all_present cfg t m response rawJSON h tp dp wd ws bp sp vis :
  fetched t = FetchOk response rawJSON ->
  present (RelativeHumidity (Properties response)) = Some h ->
  present (Temperature (Properties response)) = Some tp ->
  present (Dewpoint (Properties response)) = Some dp ->
  present (WindDirection (Properties response)) = Some wd ->
  present (WindSpeed (Properties response)) = Some ws ->
  present (BarometricPressure (Properties response)) = Some bp ->
  present (SeaLevelPressure (Properties response)) = Some sp ->
  present (Visibility (Properties response)) = Some vis ->
  humidity (metrics (cycle cfg t m)) = h /\
  temperature (metrics (cycle cfg t m)) = tp /\
  dewpoint (metrics (cycle cfg t m)) = dp /\
  winddirection (metrics (cycle cfg t m)) !! CardinalDirection wd = Some wd /\
  windspeed (metrics (cycle cfg t m)) = ws /\
  barometricpressure (metrics (cycle cfg t m)) = bp /\
  sealevelpressure (metrics (cycle cfg t m)) = sp /\
  visibility (metrics (cycle cfg t m)) = vis.
Proof.
  intros Hok H1 H2 H3 H4 H5 H6 H7 H8.
  destruct (cycle_ok cfg t m response rawJSON Hok) as (-> & _ & _).
  repeat split.
  - exact (publish_present _ _ _ FRelativeHumidity _ H1).
  - exact (publish_present _ _ _ FTemperature _ H2).
  - exact (publish_present _ _ _ FDewpoint _ H3).
  - exact (publish_present _ _ _ FWindDirection _ H4).
  - exact (publish_present _ _ _ FWindSpeed _ H5).
  - exact (publish_present _ _ _ FBarometricPressure _ H6).
  - exact (publish_present _ _ _ FSeaLevelPressure _ H7).
  - exact (publish_present _ _ _ FVisibility _ H8).
Qed.

(** C2. When the fetch succeeds and the reading [F] is missing (pointer nil
    or inner value nil), then after the cycle the collector of [F] is as it
    was before the cycle, the name of [F] is in the [missingProperties] of
    the cycle, and the collector of every reading that is present shows that
    reading. *)
Theorem cycle_missing_field cfg t m response rawJSON F :
  fetched t = FetchOk response rawJSON ->
  present (field F (Properties response)) = None ->
  gauge F (metrics (cycle cfg t m)) = gauge F m /\
  (exists missing : list string,
      published (cycle cfg t m) = Some missing /\ fieldName F ∈ missing) /\
  (forall G v, present (field G (Properties response)) = Some v ->
      shows G v (metrics (cycle cfg t m))).
Proof.
  intros Hok HF.
  destruct (cycle_ok cfg t m response rawJSON Hok) as (-> & -> & _).
  split; [now apply publish_absent |]. split.
  - eexists. split; [reflexivity |].
    rewrite publish_missing. apply list_elem_of_fmap_2.
    apply list_elem_of_filter. split; [exact HF | apply fieldOrder_complete].
  - intros G v HG. now apply publish_present.
Qed.

(** Line 122 is outside the eight conditionals: when the fetch succeeds,
    [timeSinceUpdate] is what [time.Since(..).Seconds()] returned, whatever
    readings the observation has. *)
Lemma cycle_timeSinceUpdate cfg t m response rawJSON :
  fetched t = FetchOk response rawJSON ->
  timeSinceUpdate (metrics (cycle cfg t m)) =
  Since_Seconds (clock1 t) (Timestamp (Properties response)).
Proof.
  intros Hok. destruct (cycle_ok cfg t m response rawJSON Hok) as (-> & _ & _).
  apply publish_timeSinceUpdate.
Qed.

(** C7. When the fetch succeeds and the wind direction is present with
    degree value [d], the cycle sets the gauge of the family labelled
    [CardinalDirection d] to [d], and the gauge under every other label is
    what it was before the cycle (there or not, with the same value). *)
Theorem cycle_wind_direction cfg t m response rawJSON d :
  fetched t = FetchOk response rawJSON ->
  present (WindDirection (Properties response)) = Some d ->
  winddirection (metrics (cycle cfg t m)) =
    <[CardinalDirection d := d]> (winddirection m) /\
  winddirection (metrics (cycle cfg t m)) !! CardinalDirection d = Some d /\
  (forall l : string, l <> CardinalDirection d ->
      winddirection (metrics (cycle cfg t m)) !! l = winddirection m !! l).
Proof.
  intros Hok Hd.
  destruct (cycle_ok cfg t m response rawJSON Hok) as (-> & _ & _).
  rewrite (publish_winddirection_present _ _ _ _ Hd).
  split; [reflexivity |]. split.
  - apply lookup_insert_eq.
  - intros l Hl. now apply lookup_insert_ne.
Qed.

(** C10. The [missingProperties] of a publishing block lists, in the order
    RelativeHumidity, Temperature, Dewpoint, WindDirection, WindSpeed,
    BarometricPressure, SeaLevelPressure, Visibility, exactly the readings
    that are absent, each once; it has at most eight entries. *)
Theorem missingProperties_exact now response m :
  sublist (snd (publish now response m))
    ["RelativeHumidity"; "Temperature"; "Dewpoint"; "WindDirection";
     "WindSpeed"; "BarometricPressure"; "SeaLevelPressure"; "Visibility"]%string /\
  (forall F, fieldName F ∈ snd (publish now response m) <->
             present (field F (Properties response)) = None) /\
  NoDup (snd (publish now response m)) /\
  (length (snd (publish now response m)) <= 8)%nat.
Proof.
  rewrite publish_missing. repeat split.
  - change (sublist
      (fieldName <$> filter
         (fun F => present (field F (Properties response)) = None) fieldOrder)
      (fieldName <$> fieldOrder)).
    apply fmap_sublist, sublist_filter.
  - intros Hin. apply list_elem_of_fmap in Hin. destruct Hin as (G & HG & Hin).
    apply (inj fieldName) in HG. subst G.
    now apply list_elem_of_filter in Hin.
  - intros HF. apply list_elem_of_fmap_2, list_elem_of_filter.
    split; [exact HF | apply fieldOrder_complete].
  - apply NoDup_fmap_2; [apply _ |]. apply NoDup_filter, fieldOrder_NoDup.
  - rewrite length_fmap.
    etransitivity; [apply length_filter | reflexivity].
Qed.

(** ** Fetch errors *)

(** C3, as the code has it.  When the fetch returns an error and [failfast]
    is off: no gauge changes and the publishing block is not reached; two
    lines are logged, the first reporting the error and the second
    announcing the wait and the time of the next scrape; the loop sleeps
    [backoffseconds] and polls again; and the cycles that follow run as they
    would have run without the failed one: same gauges, same events, same
    phase. *)
Theorem cycle_fetch_error_retry cfg t m err :
  fetched t = FetchErr err ->
  failfast cfg = false ->
  metrics (cycle cfg t m) = m /\
  published (cycle cfg t m) = None /\
  events (cycle cfg t m) =
    [Printf (LogProblemRetrieving (address cfg) (station cfg) err);
     Printf (LogWaiting (backofftime cfg)
               (Time_Add (clock1 t) (backoffseconds cfg)));
     Sleep (backoffseconds cfg)] /\
  length (logLines (events (cycle cfg t m))) = 2%nat /\
  sleeps (events (cycle cfg t m)) = [backoffseconds cfg] /\
  phase (cycle cfg t m) = Polling /\
  (forall t', cycle cfg t' (metrics (cycle cfg t m)) = cycle cfg t' m) /\
  (forall rest : list Tick,
      final (scrapeLoop cfg (t :: rest) m) = final (scrapeLoop cfg rest m) /\
      trace (scrapeLoop cfg (t :: rest) m) =
        events (cycle cfg t m) ++ trace (scrapeLoop cfg rest m) /\
      state (scrapeLoop cfg (t :: rest) m) = state (scrapeLoop cfg rest m)).
Proof.
  intros Herr Hff.
  assert (E : cycle cfg t m =
    {| metrics := m; published := None;
       events :=
         [Printf (LogProblemRetrieving (address cfg) (station cfg) err);
          Printf (LogWaiting (backofftime cfg)
                    (Time_Add (clock1 t) (backoffseconds cfg)));
          Sleep (backoffseconds cfg)];
       phase := Polling |}) by (unfold cycle; now rewrite Herr, Hff).
  repeat split; try (rewrite E; reflexivity).
  - simpl. now rewrite E.
  - simpl. now rewrite E.
  - simpl. now rewrite E.
Qed.

(** C4. When the fetch returns an error and [failfast] is on: the error is
    logged by [log.Fatalf] and the process exits with status 1; nothing of
    the publishing block runs (no gauge changes, no [missingProperties]);
    and the loop has halted: whatever inputs would follow, the run ends with
    this cycle. *)
Theorem cycle_fetch_error_failfast cfg t m err (rest : list Tick) :
  fetched t = FetchErr err ->
  failfast cfg = true ->
  metrics (cycle cfg t m) = m /\
  published (cycle cfg t m) = None /\
  events (cycle cfg t m) = [Printf (LogFatalError err); Exit 1] /\
  phase (cycle cfg t m) = Terminated /\
  scrapeLoop cfg (t :: rest) m =
    {| final := m; trace := [Printf (LogFatalError err); Exit 1];
       state := Terminated |}.
Proof.
  intros Herr Hff.
  assert (E : cycle cfg t m =
    {| metrics := m; published := None;
       events := [Printf (LogFatalError err); Exit 1];
       phase := Terminated |}) by (unfold cycle; now rewrite Herr, Hff).
  repeat split; try (rewrite E; reflexivity).
  simpl. now rewrite E.
Qed.

(** ** The sleep between polls *)

(** C8. Every sleep of every run lasts [backoffseconds cfg], a value fixed
    by the configuration: each cycle after which the loop polls again,
    whether its fetch succeeded or failed, sleeps exactly once and for that
    long; and with [failfast] off the loop is polling again after any number
    of cycles, failed or not, having slept that long once per cycle. *)
Theorem sleep_interval_constant cfg (ticks : list Tick) m :
  (forall d : Z, d ∈ sleeps (trace (scrapeLoop cfg ticks m)) ->
                 d = backoffseconds cfg) /\
  (forall t, phase (cycle cfg t m) = Polling ->
             sleeps (events (cycle cfg t m)) = [backoffseconds cfg]) /\
  (failfast cfg = false ->
     state (scrapeLoop cfg ticks m) = Polling /\
     sleeps (trace (scrapeLoop cfg ticks m)) =
       replicate (length ticks) (backoffseconds cfg)).
Proof.
  destruct (scrapeLoop_sleeps cfg ticks m) as (n & Hn & Hs & Hp).
  split; [| split].
  - intros d Hd. rewrite Hs in Hd. now apply elem_of_replicate in Hd.
  - intros t. apply cycle_events_sleeps.
  - intros Hff. pose proof (scrapeLoop_retry_state cfg ticks m Hff) as Hst.
    split; [exact Hst |]. now rewrite Hs, (Hp Hst).
Qed.

(** ** The verbose flag *)

Lemma with_verbose_id cfg : with_verbose (verbose cfg) cfg = cfg.
Proof. now destruct cfg. Qed.

Lemma with_verbose_twice cfg (b b' : bool) :
  with_verbose b (with_verbose b' cfg) = with_verbose b cfg.
Proof. reflexivity. Qed.

(** C9. Two cycles on the same input and the same gauges whose
    configurations differ in the [verbose] flag only end with the same
    gauges, the same [missingProperties] and the same phase, and do the same
    things apart from logging; the lines logged without [verbose] are among
    those logged with it, in the same order. *)
Theorem cycle_verbose_irrelevant cfg t m (b1 b2 : bool) :
  metrics (cycle (with_verbose b1 cfg) t m) =
    metrics (cycle (with_verbose b2 cfg) t m) /\
  published (cycle (with_verbose b1 cfg) t m) =
    published (cycle (with_verbose b2 cfg) t m) /\
  phase (cycle (with_verbose b1 cfg) t m) =
    phase (cycle (with_verbose b2 cfg) t m) /\
  effects (events (cycle (with_verbose b1 cfg) t m)) =
    effects (events (cycle (with_verbose b2 cfg) t m)) /\
  sublist (logLines (events (cycle (with_verbose false cfg) t m)))
          (logLines (events (cycle (with_verbose true cfg) t m))).
Proof.
  unfold cycle. simpl.
  destruct (fetched t) as [err | response rawJSON].
  - destruct (failfast cfg); simpl; repeat split; reflexivity.
  - simpl. repeat split.
    + destruct b1, b2, (bool_decide _); reflexivity.
    + destruct (bool_decide _); simpl.
      * apply sublist_cons, sublist_skip, sublist_cons, sublist_nil.
      * apply sublist_cons, sublist_cons, sublist_nil.
Qed.

End Properties.

(** * The statements at concrete inputs *)

Section Witnesses.
#[local] Existing Instance exactExt.

(** [cycle_all_present] on an observation with all eight readings. *)
Lemma cycle_all_present_witness :
  humidity (metrics (cycle defaultConfig (okTick fullObservation) staleMetrics)) = 48%Q /\
  temperature (metrics (cycle defaultConfig (okTick fullObservation) staleMetrics)) = (43 # 2)%Q /\
  dewpoint (metrics (cycle defaultConfig (okTick fullObservation) staleMetrics)) = 10%Q /\
  winddirection (metrics (cycle defaultConfig (okTick fullObservation) staleMetrics))
    !! "E"%string = Some 90%Q /\
  windspeed (metrics (cycle defaultConfig (okTick fullObservation) staleMetrics)) = 12%Q /\
  barometricpressure (metrics (cycle defaultConfig (okTick fullObservation) staleMetrics)) = 101320%Q /\
  sealevelpressure (metrics (cycle defaultConfig (okTick fullObservation) staleMetrics)) = 101400%Q /\
  visibility (metrics (cycle defaultConfig (okTick fullObservation) staleMetrics)) = 16090%Q.
Proof.
  apply (cycle_all_present (Ext := exactExt) defaultConfig (okTick fullObservation)
           staleMetrics fullObservation "{}"
           48%Q (43 # 2)%Q 10%Q 90%Q 12%Q 101320%Q 101400%Q 16090%Q);
    reflexivity.
Defined.

(** [cycle_missing_field] on an observation whose humidity pointer is nil. *)
Lemma cycle_missing_field_witness :
  gauge FRelativeHumidity
    (metrics (cycle defaultConfig (okTick partialObservation) staleMetrics)) =
    gauge FRelativeHumidity staleMetrics /\
  (exists missing : list string,
      published (cycle defaultConfig (okTick partialObservation) staleMetrics) =
        Some missing /\
      "RelativeHumidity"%string ∈ missing) /\
  (forall G v, present (field G (Properties partialObservation)) = Some v ->
      shows G v (metrics (cycle defaultConfig (okTick partialObservation) staleMetrics))).
Proof.
  apply (cycle_missing_field (Ext := exactExt) defaultConfig
           (okTick partialObservation) staleMetrics partialObservation "{}"
           FRelativeHumidity); reflexivity.
Defined.

(** [cycle_fetch_error_retry] on a timed-out fetch with the default flags. *)
Lemma cycle_fetch_error_retry_witness :
  metrics (cycle defaultConfig errTick staleMetrics) = staleMetrics /\
  published (cycle defaultConfig errTick staleMetrics) = None /\
  events (cycle defaultConfig errTick staleMetrics) =
    [Printf (LogProblemRetrieving "api.weather.gov" "KPHL" "timeout");
     Printf (LogWaiting 100 (1005 * Second + 100 * Second));
     Sleep (100 * Second)] /\
  length (logLines (events (cycle defaultConfig errTick staleMetrics))) = 2%nat /\
  sleeps (events (cycle defaultConfig errTick staleMetrics)) = [100 * Second] /\
  phase (cycle defaultConfig errTick staleMetrics) = Polling /\
  (forall t', cycle defaultConfig t'
                (metrics (cycle defaultConfig errTick staleMetrics)) =
              cycle defaultConfig t' staleMetrics) /\
  (forall rest : list Tick,
      final (scrapeLoop defaultConfig (errTick :: rest) staleMetrics) =
        final (scrapeLoop defaultConfig rest staleMetrics) /\
      trace (scrapeLoop defaultConfig (errTick :: rest) staleMetrics) =
        events (cycle defaultConfig errTick staleMetrics) ++
        trace (scrapeLoop defaultConfig rest staleMetrics) /\
      state (scrapeLoop defaultConfig (errTick :: rest) staleMetrics) =
        state (scrapeLoop defaultConfig rest staleMetrics)).
Proof.
  apply (cycle_fetch_error_retry (Ext := exactExt) defaultConfig errTick
           staleMetrics "timeout"); reflexivity.
Defined.

(** The lines a failed fetch logs with [failfast] off: not one but two. *)
Lemma fetch_error_logs_two_lines :
  logLines (events (cycle defaultConfig errTick staleMetrics)) =
    [LogProblemRetrieving "api.weather.gov" "KPHL" "timeout";
     LogWaiting 100 (1005 * Second + 100 * Second)] /\
  length (logLines (events (cycle defaultConfig errTick staleMetrics))) = 2%nat.
Proof. split; reflexivity. Qed.

(** [cycle_fetch_error_failfast] on a timed-out fetch with [-failfast]; the
    successful fetch that would follow is never made. *)
Lemma cycle_fetch_error_failfast_witness :
  metrics (cycle failfastConfig errTick staleMetrics) = staleMetrics /\
  published (cycle failfastConfig errTick staleMetrics) = None /\
  events (cycle failfastConfig errTick staleMetrics) =
    [Printf (LogFatalError "timeout"); Exit 1] /\
  phase (cycle failfastConfig errTick staleMetrics) = Terminated /\
  scrapeLoop failfastConfig [errTick; okTick fullObservation] staleMetrics =
    {| final := staleMetrics;
       trace := [Printf (LogFatalError "timeout"); Exit 1];
       state := Terminated |}.
Proof.
  apply (cycle_fetch_error_failfast (Ext := exactExt) failfastConfig errTick
           staleMetrics "timeout" [okTick fullObservation]); reflexivity.
Defined.

(** [cycle_wind_direction] on a wind from the east (90 degrees). *)
Lemma cycle_wind_direction_witness :
  winddirection (metrics (cycle defaultConfig (okTick partialObservation) staleMetrics)) =
    <["E"%string := 90%Q]> (winddirection staleMetrics) /\
  winddirection (metrics (cycle defaultConfig (okTick partialObservation) staleMetrics))
    !! "E"%string = Some 90%Q /\
  (forall l : string, l <> "E"%string ->
      winddirection (metrics (cycle defaultConfig (okTick partialObservation) staleMetrics))
        !! l = winddirection staleMetrics !! l).
Proof.
  apply (cycle_wind_direction (Ext := exactExt) defaultConfig
           (okTick partialObservation) staleMetrics partialObservation "{}" 90%Q);
    reflexivity.
Defined.

(** [sleep_interval_constant] on two failed fetches followed by a successful
    one: three sleeps of 100 seconds. *)
Lemma sleep_interval_constant_witness :
  (forall d : Z,
      d ∈ sleeps (trace (scrapeLoop defaultConfig
                           [errTick; errTick; okTick fullObservation] staleMetrics)) ->
      d = 100 * Second) /\
  (forall t, phase (cycle defaultConfig t staleMetrics) = Polling ->
             sleeps (events (cycle defaultConfig t staleMetrics)) = [100 * Second]) /\
  (failfast defaultConfig = false ->
     state (scrapeLoop defaultConfig
              [errTick; errTick; okTick fullObservation] staleMetrics) = Polling /\
     sleeps (trace (scrapeLoop defaultConfig
                      [errTick; errTick; okTick fullObservation] staleMetrics)) =
       [100 * Second; 100 * Second; 100 * Second]).
Proof.
  exact (sleep_interval_constant (Ext := exactExt) defaultConfig
           [errTick; errTick; okTick fullObservation] staleMetrics).
Defined.

(** The gauge of north set by an earlier cycle is still there after a cycle
    that reports an easterly wind. *)
Example wind_direction_labels_accumulate :
  winddirection (metrics (cycle defaultConfig (okTick partialObservation) staleMetrics))
    !! "N"%string = Some 10%Q /\
  published (cycle defaultConfig (okTick partialObservation) staleMetrics) =
    Some ["RelativeHumidity"; "Dewpoint"]%string /\
  published (cycle defaultConfig (okTick emptyObservation) staleMetrics) =
    Some ["RelativeHumidity"; "Temperature"; "Dewpoint"; "WindDirection";
          "WindSpeed"; "BarometricPressure"; "SeaLevelPressure"; "Visibility"]%string.
Proof. repeat split. Qed.

(** Rounding half away from zero and rounding ties upward part ways at the
    negative ties only. *)
Example round_at_a_negative_tie :
  Cardinal.round_away (-1 # 2) = -1 /\ Cardinal.round (-1 # 2) = 0.
Proof. split; reflexivity. Qed.

End Witnesses.

(** * Further properties of the loop *)

Section MoreProperties.
Context `{Ext : Externals}.
Implicit Types (m : MetricSet) (p : ObservationProperties) (F G : Field).
Implicit Types (st : MetricSet * list string) (cfg : Config) (t : Tick).

(** ** Cycles compose *)

Lemma Run_eta (r : Run) :
  {| final := final r; trace := trace r; state := state r |} = r.
Proof. now destruct r. Qed.

Lemma scrapeLoop_app cfg (l1 l2 : list Tick) m :
  scrapeLoop cfg (l1 ++ l2) m =
  match state (scrapeLoop cfg l1 m) with
  | Terminated => scrapeLoop cfg l1 m
  | Polling =>
      {| final := final (scrapeLoop cfg l2 (final (scrapeLoop cfg l1 m)));
         trace := trace (scrapeLoop cfg l1 m) ++
                  trace (scrapeLoop cfg l2 (final (scrapeLoop cfg l1 m)));
         state := state (scrapeLoop cfg l2 (final (scrapeLoop cfg l1 m))) |}
  end.
Proof.
  revert m. induction l1 as [| t l1 IH]; intros m; simpl.
  - now rewrite Run_eta.
  - destruct (phase (cycle cfg t m)); [| reflexivity].
    rewrite IH. simpl.
    destruct (state (scrapeLoop cfg l1 (metrics (cycle cfg t m)))) eqn:E; simpl.
    + now rewrite app_assoc.
    + now rewrite E.
Qed.

Lemma scrapeLoop_singleton cfg t m :
  final (scrapeLoop cfg [t] m) = metrics (cycle cfg t m) /\
  state (scrapeLoop cfg [t] m) = phase (cycle cfg t m).
Proof. simpl. destruct (phase (cycle cfg t m)); auto. Qed.

Lemma cycle_phase_Terminated cfg t m :
  phase (cycle cfg t m) = Terminated <-> failfast cfg = true /\ failed t = true.
Proof.
  unfold cycle, failed. destruct (fetched t), (failfast cfg); simpl; intuition congruence.
Qed.

Lemma cycle_failed_metrics cfg t m : failed t = true -> metrics (cycle cfg t m) = m.
Proof.
  unfold cycle, failed. destruct (fetched t); [| discriminate].
  now destruct (failfast cfg).
Qed.

Lemma cycle_ok_metrics cfg cfg' t m :
  failed t = false -> metrics (cycle cfg t m) = metrics (cycle cfg' t m).
Proof. unfold cycle, failed. now destruct (fetched t). Qed.

Lemma cycle_ok_phase cfg t m : failed t = false -> phase (cycle cfg t m) = Polling.
Proof. unfold cycle, failed. now destruct (fetched t). Qed.

Lemma cycle_events_Exit cfg t m (c : Z) :
  Exit c ∈ events (cycle cfg t m) -> c = 1 /\ phase (cycle cfg t m) = Terminated.
Proof.
  unfold cycle. destruct (fetched t) as [err | response rawJSON].
  - destruct (failfast cfg); simpl; intros H.
    + apply elem_of_cons in H as [H | H]; [discriminate |].
      apply list_elem_of_singleton in H. injection H as ->. auto.
    + repeat (apply elem_of_cons in H as [H | H]; [discriminate |]).
      now apply elem_of_nil in H.
  - destruct (verbose cfg), (bool_decide _); simpl; intros H;
      repeat (apply elem_of_cons in H as [H | H]; [discriminate |]);
      now apply elem_of_nil in H.
Qed.

Lemma cycle_events_Terminated cfg t m :
  phase (cycle cfg t m) = Terminated -> last (events (cycle cfg t m)) = Some (Exit 1).
Proof.
  unfold cycle. destruct (fetched t); [| discriminate].
  destruct (failfast cfg); [reflexivity | discriminate].
Qed.

Lemma scrapeLoop_state_Terminated cfg (ticks : list Tick) m :
  state (scrapeLoop cfg ticks m) = Terminated <->
  failfast cfg = true /\ exists t, t ∈ ticks /\ failed t = true.
Proof.
  revert m. induction ticks as [| t rest IH]; intros m.
  - simpl. split; [discriminate |]. intros (_ & t & Ht & _).
    now apply elem_of_nil in Ht.
  - destruct (phase (cycle cfg t m)) eqn:E.
    + destruct (scrapeLoop_cons_Polling cfg t rest m E) as (_ & _ & ->).
      rewrite IH. split.
      * intros (Hff & t' & Ht' & Hf). split; [exact Hff |].
        exists t'. split; [now apply elem_of_cons; right | exact Hf].
      * intros (Hff & t' & Ht' & Hf). split; [exact Hff |].
        apply elem_of_cons in Ht' as [-> | Ht']; [| now exists t'].
        assert (phase (cycle cfg t m) = Terminated)
          by now apply cycle_phase_Terminated.
        congruence.
    + simpl. rewrite E. simpl. split; [intros _ | reflexivity].
      apply cycle_phase_Terminated in E as [Hff Hf]. split; [exact Hff |].
      exists t. split; [apply elem_of_cons; now left | exact Hf].
Qed.

Lemma scrapeLoop_trace_Exit cfg (ticks : list Tick) m (c : Z) :
  Exit c ∈ trace (scrapeLoop cfg ticks m) ->
  c = 1 /\ state (scrapeLoop cfg ticks m) = Terminated.
Proof.
  revert m. induction ticks as [| t rest IH]; intros m.
  - simpl. intros H. now apply elem_of_nil in H.
  - destruct (phase (cycle cfg t m)) eqn:E.
    + destruct (scrapeLoop_cons_Polling cfg t rest m E) as (_ & -> & ->).
      intros H. apply elem_of_app in H as [H | H]; [| now apply IH].
      apply cycle_events_Exit in H as [_ H]. congruence.
    + simpl. rewrite E. simpl. intros H.
      apply cycle_events_Exit in H as [-> _]. auto.
Qed.

Lemma scrapeLoop_trace_last cfg (ticks : list Tick) m :
  state (scrapeLoop cfg ticks m) = Terminated ->
  last (trace (scrapeLoop cfg ticks m)) = Some (Exit 1).
Proof.
  revert m. induction ticks as [| t rest IH]; intros m.
  - discriminate.
  - destruct (phase (cycle cfg t m)) eqn:E.
    + destruct (scrapeLoop_cons_Polling cfg t rest m E) as (_ & -> & ->).
      intros H. rewrite last_app, (IH _ H). reflexivity.
    + simpl. rewrite E. simpl. intros _. now apply cycle_events_Terminated.
Qed.

(** The loop ends the process exactly when [failfast] is on and some fetch
    fails; it then exits with status 1, and that exit is the last thing it
    does.  In every other run there is no exit at all. *)
Theorem scrapeLoop_exit_iff cfg (ticks : list Tick) m :
  (state (scrapeLoop cfg ticks m) = Terminated <->
     failfast cfg = true /\ exists t, t ∈ ticks /\ failed t = true) /\
  (forall c : Z, Exit c ∈ trace (scrapeLoop cfg ticks m) ->
     c = 1 /\ state (scrapeLoop cfg ticks m) = Terminated) /\
  (state (scrapeLoop cfg ticks m) = Terminated ->
     last (trace (scrapeLoop cfg ticks m)) = Some (Exit 1)).
Proof.
  split; [apply scrapeLoop_state_Terminated |].
  split; [intros c; apply scrapeLoop_trace_Exit | apply scrapeLoop_trace_last].
Qed.

(** With [failfast] off, the gauges a run leaves are those left by its
    successful fetches alone, in order: the failed fetches can be taken out
    of the run, and no flag matters. *)
Theorem scrapeLoop_final_successes cfg cfg' (ticks : list Tick) m :
  failfast cfg = false ->
  final (scrapeLoop cfg ticks m) =
  final (scrapeLoop cfg' (filter (fun t => failed t = false) ticks) m).
Proof.
  intros Hff. revert m. induction ticks as [| t rest IH]; intros m; [reflexivity |].
  destruct (scrapeLoop_cons_Polling cfg t rest m (cycle_phase_retry cfg t m Hff))
    as (-> & _ & _).
  destruct (failed t) eqn:Hf.
  - rewrite filter_cons_False by congruence.
    rewrite cycle_failed_metrics by exact Hf. apply IH.
  - rewrite filter_cons_True by exact Hf.
    destruct (scrapeLoop_cons_Polling cfg' t
                (filter (fun t => failed t = false) rest) m
                (cycle_ok_phase cfg' t m Hf)) as (-> & _ & _).
    rewrite (cycle_ok_metrics cfg' cfg t m Hf). apply IH.
Qed.

(** ** What a gauge holds after a run *)

Lemma cycle_reported_Some cfg t m F v :
  reported F t = Some v -> shows F v (metrics (cycle cfg t m)).
Proof.
  unfold reported. destruct (fetched t) as [err | response rawJSON] eqn:E;
    [discriminate |].
  intros HF. destruct (cycle_ok cfg t m response rawJSON E) as (-> & _ & _).
  now apply publish_present.
Qed.

Lemma cycle_reported_None cfg t m F :
  reported F t = None -> gauge F (metrics (cycle cfg t m)) = gauge F m.
Proof.
  unfold reported. destruct (fetched t) as [err | response rawJSON] eqn:E.
  - intros _. rewrite cycle_failed_metrics; [reflexivity |].
    unfold failed. now rewrite E.
  - intros HF. destruct (cycle_ok cfg t m response rawJSON E) as (-> & _ & _).
    now apply publish_absent.
Qed.

Lemma scrapeLoop_snoc_Polling cfg (l : list Tick) t m :
  state (scrapeLoop cfg (l ++ [t]) m) = Polling ->
  state (scrapeLoop cfg l m) = Polling /\
  final (scrapeLoop cfg (l ++ [t]) m) =
    metrics (cycle cfg t (final (scrapeLoop cfg l m))).
Proof.
  rewrite scrapeLoop_app.
  destruct (state (scrapeLoop cfg l m)) eqn:E; [| congruence].
  intros _. split; [reflexivity |]. simpl.
  apply (scrapeLoop_singleton cfg t).
Qed.

(** After a run the loop has gone through, the collector of a reading shows
    the latest value a successful fetch reported for it, however many cycles
    ago and whatever happened since (failed fetches, observations without
    that reading); and when no fetch of the run reported the reading, the
    collector is as it was before the run. *)
Theorem scrapeLoop_latest_reading cfg (ticks : list Tick) m F :
  state (scrapeLoop cfg ticks m) = Polling ->
  (forall v, last (omap (reported F) ticks) = Some v ->
             shows F v (final (scrapeLoop cfg ticks m))) /\
  (omap (reported F) ticks = [] ->
     gauge F (final (scrapeLoop cfg ticks m)) = gauge F m).
Proof.
  induction ticks as [| t l IH] using rev_ind.
  - intros _. split; [discriminate | reflexivity].
  - intros Hst. apply scrapeLoop_snoc_Polling in Hst as [Hl ->].
    destruct (IH Hl) as [IH1 IH2]. rewrite omap_app. simpl.
    destruct (reported F t) as [w |] eqn:Hr.
    + split.
      * intros v. rewrite last_snoc. intros [= <-].
        now apply cycle_reported_Some.
      * intros H. now apply app_nil in H as [_ H].
    + rewrite app_nil_r. split.
      * intros v Hv. eapply shows_gauge; [| exact (IH1 v Hv)].
        now apply cycle_reported_None.
      * intros H. rewrite cycle_reported_None by exact Hr. now apply IH2.
Qed.

(** ** The wind direction family over a run *)

Lemma cycle_winddirection cfg t m :
  winddirection (metrics (cycle cfg t m)) =
  match reported FWindDirection t with
  | Some d => <[CardinalDirection d := d]> (winddirection m)
  | None => winddirection m
  end.
Proof.
  destruct (reported FWindDirection t) as [d |] eqn:Hr.
  - unfold reported in Hr.
    destruct (fetched t) as [err | response rawJSON] eqn:E; [discriminate |].
    destruct (cycle_ok cfg t m response rawJSON E) as (-> & _ & _).
    now apply publish_winddirection_present.
  - pose proof (cycle_reported_None cfg t m FWindDirection Hr) as H.
    simpl in H. now injection H.
Qed.

Lemma scrapeLoop_winddirection_kept cfg (ticks : list Tick) m (l : string) :
  is_Some (winddirection m !! l) ->
  is_Some (winddirection (final (scrapeLoop cfg ticks m)) !! l).
Proof.
  revert m. induction ticks as [| t rest IH]; intros m Hl; [exact Hl |].
  assert (Hc : is_Some (winddirection (metrics (cycle cfg t m)) !! l)).
  { rewrite cycle_winddirection. destruct (reported FWindDirection t) as [d |];
      [| exact Hl].
    rewrite lookup_insert. case_decide; [eauto | exact Hl]. }
  simpl. destruct (phase (cycle cfg t m)); simpl; [now apply IH | exact Hc].
Qed.

Lemma scrapeLoop_winddirection_origin cfg (ticks : list Tick) m (l : string) v :
  winddirection (final (scrapeLoop cfg ticks m)) !! l = Some v ->
  winddirection m !! l = Some v \/
  exists t, t ∈ ticks /\ reported FWindDirection t = Some v /\
            l = CardinalDirection v.
Proof.
  revert m. induction ticks as [| t rest IH]; intros m Hl; [now left |].
  assert (Hc : winddirection (metrics (cycle cfg t m)) !! l = Some v ->
               winddirection m !! l = Some v \/
               exists t', t' ∈ t :: rest /\ reported FWindDirection t' = Some v /\
                          l = CardinalDirection v).
  { rewrite cycle_winddirection.
    destruct (reported FWindDirection t) as [d |] eqn:Hr; [| now left].
    rewrite lookup_insert. case_decide as Hd; [| now left].
    intros [= <-]. right. exists t.
    split; [apply elem_of_cons; now left | auto]. }
  simpl in Hl. destruct (phase (cycle cfg t m)); simpl in Hl; [| now apply Hc].
  apply IH in Hl as [Hl | (t' & Ht' & Hr & ->)]; [now apply Hc |].
  right. exists t'. split; [apply elem_of_cons; now right | auto].
Qed.

(** Over any run, the wind direction family only grows: a label that has a
    series keeps one (with the latest value set under it); a series of the
    family after the run either was there before with the same value or
    holds a wind direction a fetch of the run reported, under the compass
    label of that direction.  So if every series started out under the
    label of its value, every series still is. *)
Theorem winddirection_family_grows cfg (ticks : list Tick) m :
  (forall l : string, is_Some (winddirection m !! l) ->
     is_Some (winddirection (final (scrapeLoop cfg ticks m)) !! l)) /\
  (forall (l : string) v,
     winddirection (final (scrapeLoop cfg ticks m)) !! l = Some v ->
     winddirection m !! l = Some v \/
     exists t, t ∈ ticks /\ reported FWindDirection t = Some v /\
               l = CardinalDirection v) /\
  ((forall (l : string) v, winddirection m !! l = Some v ->
                           l = CardinalDirection v) ->
   forall (l : string) v,
     winddirection (final (scrapeLoop cfg ticks m)) !! l = Some v ->
     l = CardinalDirection v).
Proof.
  split; [intros l; apply scrapeLoop_winddirection_kept |].
  split; [intros l v; apply scrapeLoop_winddirection_origin |].
  intros Hinv l v Hl.
  apply scrapeLoop_winddirection_origin in Hl as [Hl | (_ & _ & _ & ->)];
    [now apply Hinv | reflexivity].
Qed.

(** ** The publishing block, once more *)

Lemma MetricSet_ext m m' :
  (forall F, gauge F m = gauge F m') ->
  timeSinceUpdate m = timeSinceUpdate m' ->
  m = m'.
Proof.
  intros Hg Ht. destruct m, m'. simpl in Ht.
  pose proof (Hg FRelativeHumidity) as H1. pose proof (Hg FTemperature) as H2.
  pose proof (Hg FDewpoint) as H3. pose proof (Hg FWindDirection) as H4.
  pose proof (Hg FWindSpeed) as H5. pose proof (Hg FBarometricPressure) as H6.
  pose proof (Hg FSeaLevelPressure) as H7. pose proof (Hg FVisibility) as H8.
  simpl in *. congruence.
Qed.

Lemma publish_gauge_again now response m F :
  gauge F (fst (publish now response (fst (publish now response m)))) =
  gauge F (fst (publish now response m)).
Proof.
  destruct (present (field F (Properties response))) as [v |] eqn:E;
    [| now apply publish_absent].
  pose proof (publish_present now response m F v E) as H1.
  pose proof (publish_present now response (fst (publish now response m)) F v E)
    as H2.
  destruct F; unfold shows in H1, H2; cbn [gauge] in H1, H2 |- *;
    try congruence.
  cbn [field] in E.
  rewrite (publish_winddirection_present now response _ d E) ||
  rewrite !(publish_winddirection_present _ _ _ _ E).
  now rewrite insert_insert_eq.
Qed.

(** Publishing an observation a second time, at the same reading of the
    clock, changes nothing: the gauges and [missingProperties] are those of
    the first time. *)
Theorem publish_idempotent now response m :
  publish now response (fst (publish now response m)) = publish now response m.
Proof.
  apply injective_projections.
  - apply MetricSet_ext; [intros F; apply publish_gauge_again |].
    now rewrite !publish_timeSinceUpdate.
  - now rewrite !publish_missing.
Qed.

Lemma publishField_fst p st st' F :
  fst st = fst st' -> fst (publishField p st F) = fst (publishField p st' F).
Proof.
  intros E. unfold publishField, setIfPresent.
  destruct (present (field F p)); simpl; now rewrite E.
Qed.

Lemma foldl_publishField_fst p (l : list Field) st st' :
  fst st = fst st' ->
  fst (foldl (publishField p) st l) = fst (foldl (publishField p) st' l).
Proof.
  revert st st'. induction l as [| F l IH]; intros st st' E; simpl; [exact E |].
  apply IH. now apply publishField_fst.
Qed.

Lemma setGauge_comm F G v w m :
  F <> G -> setGauge G w (setGauge F v m) = setGauge F v (setGauge G w m).
Proof. intros Hne. destruct F, G; (congruence || reflexivity). Qed.

Lemma publishField_swap p st F G :
  fst (publishField p (publishField p st F) G) =
  fst (publishField p (publishField p st G) F).
Proof.
  destruct (decide (F = G)) as [-> | Hne]; [reflexivity |].
  destruct (publishField_cases p st F) as [(v & EF & ->) | (EF & ->)],
           (publishField_cases p st G) as [(w & EG & ->) | (EG & ->)].
  - rewrite (publishField_present _ _ _ _ EF), (publishField_present _ _ _ _ EG).
    simpl. now apply setGauge_comm.
  - rewrite (publishField_present _ _ _ _ EF), (publishField_absent _ _ _ EG).
    reflexivity.
  - rewrite (publishField_absent _ _ _ EF), (publishField_present _ _ _ _ EG).
    reflexivity.
  - rewrite (publishField_absent _ _ _ EF), (publishField_absent _ _ _ EG).
    reflexivity.
Qed.

Lemma foldl_publishField_Permutation p (l l' : list Field) st :
  l ≡ₚ l' ->
  fst (foldl (publishField p) st l) = fst (foldl (publishField p) st l').
Proof.
  intros Hp. revert st.
  induction Hp as [| x l l' _ IH | x y l | l l' l'' _ IH1 _ IH2]; intros st; simpl.
  - reflexivity.
  - apply IH.
  - apply foldl_publishField_fst, publishField_swap.
  - now rewrite IH1.
Qed.

(** The eight readings are published independently: taken in any order, the
    eight [if ... else] steps leave the same gauges.  (The order shows in
    [missingProperties] only.) *)
Theorem publish_order_irrelevant now response m (l : list Field) :
  l ≡ₚ fieldOrder ->
  fst (foldl (publishField (Properties response))
         (Set_timeSinceUpdate
            (Since_Seconds now (Timestamp (Properties response))) m, []) l) =
  fst (publish now response m).
Proof.
  intros Hp. rewrite publish_fold. now apply foldl_publishField_Permutation.
Qed.

(** ** What a successful cycle logs *)

Lemma publish_missing_nil now response m :
  (forall F, is_Some (present (field F (Properties response)))) ->
  snd (publish now response m) = [].
Proof.
  intros Hall. rewrite publish_missing.
  replace (filter (fun F => present (field F (Properties response)) = None)
             fieldOrder) with (@nil Field); [reflexivity |].
  symmetry. apply elem_of_nil_inv. intros F HF.
  apply list_elem_of_filter in HF as [HF _].
  destruct (Hall F) as [v Hv]. congruence.
Qed.

Lemma publish_missing_elem now response m F :
  present (field F (Properties response)) = None ->
  fieldName F ∈ snd (publish now response m).
Proof.
  intros HF. rewrite publish_missing. apply list_elem_of_fmap_2.
  apply list_elem_of_filter. split; [exact HF | apply fieldOrder_complete].
Qed.

(** A cycle whose fetch succeeded logs the missing readings exactly when
    there are some: with all eight readings present it logs nothing about
    them (and nothing at all without [verbose]); with a reading absent it
    logs one line that lists [missingProperties], between the two lines of
    [verbose] when that flag is on. *)
Theorem cycle_logs_missing cfg t m response rawJSON :
  fetched t = FetchOk response rawJSON ->
  ((forall F, is_Some (present (field F (Properties response)))) ->
     logLines (events (cycle cfg t m)) =
       if verbose cfg
       then [LogRawJSON rawJSON;
             LogWaiting (backofftime cfg)
               (Time_Add (clock2 t) (backoffseconds cfg))]
       else []) /\
  (forall F, present (field F (Properties response)) = None ->
     fieldName F ∈ snd (publish (clock1 t) response m) /\
     logLines (events (cycle cfg t m)) =
       (if verbose cfg then [LogRawJSON rawJSON] else []) ++
       [LogMissing (snd (publish (clock1 t) response m))] ++
       (if verbose cfg
        then [LogWaiting (backofftime cfg)
                (Time_Add (clock2 t) (backoffseconds cfg))]
        else [])).
Proof.
  intros Hok. unfold cycle. rewrite Hok. simpl. split.
  - intros Hall. rewrite (publish_missing_nil _ _ _ Hall). simpl.
    now destruct (verbose cfg).
  - intros F HF. pose proof (publish_missing_elem (clock1 t) response m F HF) as Hin.
    split; [exact Hin |].
    rewrite bool_decide_true.
    + now destruct (verbose cfg).
    + intros Hlen. apply nil_length_inv in Hlen. rewrite Hlen in Hin.
      now apply elem_of_nil in Hin.
Qed.

(** ** The sleep interval as a duration *)

Lemma wrap64_range (z : Z) : - 2 ^ 63 <= wrap64 z < 2 ^ 63.
Proof.
  unfold wrap64. pose proof (Z.mod_pos_bound (z + 2 ^ 63) (2 ^ 64)). lia.
Qed.

Lemma wrap64_id (z : Z) : wrap64 z = z <-> - 2 ^ 63 <= z < 2 ^ 63.
Proof.
  split.
  - intros <-. apply wrap64_range.
  - intros Hz. unfold wrap64. rewrite Z.mod_small by lia. lia.
Qed.

(** The interval the loop sleeps is a [time.Duration]: it is the configured
    number of seconds exactly when [backofftime] is at most 9223372036 in
    absolute value, the largest count of seconds an [int64] of nanoseconds
    holds; past that the product wraps around.  A positive [backofftime] in
    that range gives a positive sleep. *)
Theorem backoffseconds_exact cfg :
  - 2 ^ 63 <= backoffseconds cfg < 2 ^ 63 /\
  (backoffseconds cfg = backofftime cfg * Second <->
   -9223372036 <= backofftime cfg <= 9223372036) /\
  (0 < backofftime cfg <= 9223372036 -> 0 < backoffseconds cfg).
Proof.
  unfold backoffseconds.
  assert (Hiff : wrap64 (backofftime cfg * Second) = backofftime cfg * Second <->
                 -9223372036 <= backofftime cfg <= 9223372036).
  { rewrite wrap64_id. unfold Second.
    change (2 ^ 63) with 9223372036854775808. lia. }
  split; [apply wrap64_range |]. split; [exact Hiff |].
  intros Hb. rewrite (proj2 Hiff) by lia. unfold Second. lia.
Qed.

(** ** [main] *)

#[local] Instance Emit_inj : Inj (=) (=) Emit.
Proof. intros e e' H. now injection H. Qed.

Lemma main_help cfg (ticks : list Tick) m :
  main true cfg ticks m = ([FlagUsage; Emit (Exit 1)], m).
Proof. reflexivity. Qed.

Lemma main_Emit cfg (ticks : list Tick) m (e : Event) :
  Emit e ∈ fst (main false cfg ticks m) <-> e ∈ trace (scrapeLoop cfg ticks m).
Proof.
  unfold main. simpl. rewrite !elem_of_cons, (list_elem_of_fmap_inj Emit).
  split; [intros [? | [? | ?]]; [discriminate | discriminate | assumption] | auto].
Qed.

(** [main] and its scrape loop exit of their own accord in two cases only,
    and with status 1 in both: [-help] was given, or [failfast] is on and a
    fetch failed.  With [-help] the exit comes before anything else:
    nothing is logged, no fetch result is used and no gauge is touched.
    Without it the two startup lines come first, before the first fetch. *)
Theorem main_exit_iff (help : bool) cfg (ticks : list Tick) m :
  (forall c : Z,
     Emit (Exit c) ∈ fst (main help cfg ticks m) <->
     c = 1 /\ (help = true \/
               (failfast cfg = true /\ exists t, t ∈ ticks /\ failed t = true))) /\
  (help = true ->
     main help cfg ticks m = ([FlagUsage; Emit (Exit 1)], m)) /\
  (help = false ->
     snd (main help cfg ticks m) = final (scrapeLoop cfg ticks m) /\
     fst (main help cfg ticks m) =
       [EmitStartup (LogStartingUp (address cfg) (station cfg));
        EmitStartup (LogServing (localaddr cfg))] ++
       (Emit <$> trace (scrapeLoop cfg ticks m))).
Proof.
  split; [| split; [now intros -> | now intros ->]].
  intros c. destruct help.
  - rewrite main_help. simpl. rewrite !elem_of_cons, elem_of_nil. split.
    + intros [H | [H | []]]; [discriminate |]. injection H as ->. auto.
    + intros [-> _]. auto.
  - rewrite main_Emit. split.
    + intros H. apply scrapeLoop_trace_Exit in H as [-> Hst].
      split; [reflexivity |]. right.
      exact (proj1 (scrapeLoop_state_Terminated cfg ticks m) Hst).
    + intros [-> [Hh | Hf]]; [discriminate |].
      apply (proj2 (scrapeLoop_state_Terminated cfg ticks m)) in Hf.
      apply scrapeLoop_trace_last in Hf. now apply last_Some_elem_of.
Qed.

End MoreProperties.

(** * The further statements at concrete inputs *)

Section MoreWitnesses.
#[local] Existing Instance exactExt.

(** [scrapeLoop_final_successes] on a run of four fetches, two of them
    failed: the gauges are those left by the two successful ones. *)
Lemma scrapeLoop_final_successes_witness :
  final (scrapeLoop defaultConfig
           [errTick; okTick partialObservation; errTick; okTick emptyObservation]
           staleMetrics) =
  final (scrapeLoop failfastConfig
           [okTick partialObservation; okTick emptyObservation] staleMetrics).
Proof.
  exact (scrapeLoop_final_successes (Ext := exactExt) defaultConfig failfastConfig
           [errTick; okTick partialObservation; errTick; okTick emptyObservation]
           staleMetrics eq_refl).
Defined.

(** [scrapeLoop_latest_reading] on a run whose first fetch reports a
    humidity of 48, whose second fetch fails and whose third reports no
    humidity: the gauge still holds 48. *)
Lemma scrapeLoop_latest_reading_witness :
  humidity (final (scrapeLoop defaultConfig
                     [okTick fullObservation; errTick; okTick partialObservation]
                     staleMetrics)) = 48%Q.
Proof.
  exact (proj1 (scrapeLoop_latest_reading (Ext := exactExt) defaultConfig
                  [okTick fullObservation; errTick; okTick partialObservation]
                  staleMetrics FRelativeHumidity eq_refl) 48%Q eq_refl).
Defined.

(** [publish_order_irrelevant] on the eight readings taken last to first. *)
Lemma publish_order_irrelevant_witness :
  fst (foldl (publishField (Properties partialObservation))
         (Set_timeSinceUpdate
            (Since_Seconds (1005 * Second)
               (Timestamp (Properties partialObservation))) staleMetrics, [])
         [FVisibility; FSeaLevelPressure; FBarometricPressure; FWindSpeed;
          FWindDirection; FDewpoint; FTemperature; FRelativeHumidity]) =
  fst (publish (1005 * Second) partialObservation staleMetrics).
Proof.
  apply (publish_order_irrelevant (Ext := exactExt) (1005 * Second)
           partialObservation staleMetrics
           [FVisibility; FSeaLevelPressure; FBarometricPressure; FWindSpeed;
            FWindDirection; FDewpoint; FTemperature; FRelativeHumidity]).
  apply (reverse_Permutation fieldOrder).
Defined.

(** [cycle_logs_missing] on an observation without humidity and dewpoint,
    with the default flags: one line, listing the two. *)
Lemma cycle_logs_missing_witness :
  "RelativeHumidity"%string ∈
    snd (publish (1005 * Second) partialObservation staleMetrics) /\
  logLines (events (cycle defaultConfig (okTick partialObservation) staleMetrics)) =
    [LogMissing ["RelativeHumidity"; "Dewpoint"]%string].
Proof.
  exact (proj2 (cycle_logs_missing (Ext := exactExt) defaultConfig
                  (okTick partialObservation) staleMetrics partialObservation
                  "{}" eq_refl) FRelativeHumidity eq_refl).
Defined.

End MoreWitnesses.

(** * The elapsed time of line 122 *)

Section ElapsedTime.
Import GoTime.

Lemma Sub_exact (t u : Z) :
  minDuration <= t - u <= maxDuration -> Sub t u = t - u.
Proof.
  intros H. unfold Sub.
  destruct (Z.ltb_spec (t - u) minDuration); [lia |].
  destruct (Z.ltb_spec maxDuration (t - u)); [lia | reflexivity].
Qed.

Lemma Sub_above (t u : Z) : maxDuration < t - u -> Sub t u = maxDuration.
Proof.
  intros H. unfold Sub.
  destruct (Z.ltb_spec (t - u) minDuration) as [Hlt |];
    [unfold minDuration, maxDuration in *; lia |].
  destruct (Z.ltb_spec maxDuration (t - u)); [reflexivity | lia].
Qed.

Lemma Sub_below (t u : Z) : t - u < minDuration -> Sub t u = minDuration.
Proof.
  intros H. unfold Sub.
  destruct (Z.ltb_spec (t - u) minDuration); [reflexivity | lia].
Qed.

(** Adding [+0] to the float of an unsigned integer gives that float back. *)
Lemma of_uint63_add_zero (n : PrimInt63.int) :
  PrimFloat.add (PrimFloat.of_uint63 n) (float64_of_int64 0) =
  PrimFloat.of_uint63 n.
Proof.
  apply FloatAxioms.Prim2SF_inj.
  rewrite FloatAxioms.add_spec, FloatAxioms.of_uint63_spec.
  change (FloatOps.Prim2SF (float64_of_int64 0)) with (SpecFloat.S754_zero false).
  pose proof (Uint63.to_Z_bounded n) as Hn.
  unfold SpecFloat.binary_normalize.
  destruct (Uint63Axioms.to_Z n) as [| p | p] eqn:E.
  - reflexivity.
  - unfold SpecFloat.binary_round.
    destruct (SpecFloat.shl_align _ _ _) as [mz ez].
    unfold SpecFloat.binary_round_aux.
    destruct (SpecFloat.shr_fexp _ _ _ _ _) as [mrs' e'].
    destruct (SpecFloat.shr_fexp _ _ _ _ _) as [mrs'' e''].
    destruct (SpecFloat.shr_m mrs'') as [| q | q]; try reflexivity.
    destruct (Z.leb _ _); reflexivity.
  - exfalso. change (Uint63Axioms.to_Z n) with (Uint63.to_Z n) in E. lia.
Qed.

(** A duration of [k] whole seconds is [float64(k)] seconds. *)
Lemma Seconds_whole (k : Z) :
  0 <= k -> Seconds (k * Second) = float64_of_int64 k.
Proof.
  intros Hk. unfold Seconds.
  rewrite Z.quot_mul, Z.rem_mul by discriminate.
  change (PrimFloat.div (float64_of_int64 0) (float64_of_int64 1000000000))
    with (float64_of_int64 0).
  unfold float64_of_int64 at 1 3.
  destruct (Z.ltb_spec k 0); [lia |].
  apply of_uint63_add_zero.
Qed.

(** C5, as the code has it.  When the fetch succeeds, the cycle sets
    [timeSinceUpdate] to [time.Since(timestamp).Seconds()] at the reading of
    the clock, whatever readings the observation has (all, some or none of
    the eight).  That is the difference between the clock and the timestamp
    in seconds, as a [float64], when the difference is a [time.Duration]
    (from [-2^63] to [2^63 - 1] nanoseconds, about 292 years either way);
    the seconds of the greatest duration when the difference is above that
    range, and of the least when it is below.  For a difference of [k]
    whole seconds in the range the gauge is [float64(k)]. *)
Theorem cycle_timeSinceUpdate_saturating (label : PrimFloat.float -> string)
    (cfg : Config) (t : @Tick (goExt label)) (m : @MetricSet (goExt label))
    (response : @Observation (goExt label)) (rawJSON : string) :
  fetched t = FetchOk response rawJSON ->
  timeSinceUpdate (metrics (cycle cfg t m)) =
    Seconds (Sub (clock1 t) (Timestamp (Properties response))) /\
  (minDuration <= clock1 t - Timestamp (Properties response) <= maxDuration ->
   timeSinceUpdate (metrics (cycle cfg t m)) =
     Seconds (clock1 t - Timestamp (Properties response))) /\
  (maxDuration < clock1 t - Timestamp (Properties response) ->
   timeSinceUpdate (metrics (cycle cfg t m)) = Seconds maxDuration) /\
  (clock1 t - Timestamp (Properties response) < minDuration ->
   timeSinceUpdate (metrics (cycle cfg t m)) = Seconds minDuration) /\
  (forall k : Z, 0 <= k <= 9223372036 ->
   clock1 t - Timestamp (Properties response) = k * Second ->
   timeSinceUpdate (metrics (cycle cfg t m)) = float64_of_int64 k).
Proof.
  intros Hok.
  assert (E : timeSinceUpdate (metrics (cycle cfg t m)) =
              Seconds (Sub (clock1 t) (Timestamp (Properties response))))
    by exact (cycle_timeSinceUpdate cfg t m response rawJSON Hok).
  rewrite E. split; [reflexivity |].
  split; [intros H; now rewrite Sub_exact |].
  split; [intros H; now rewrite Sub_above |].
  split; [intros H; now rewrite Sub_below |].
  intros k Hk Hd. rewrite Sub_exact, Hd.
  - apply Seconds_whole. lia.
  - rewrite Hd. unfold minDuration, maxDuration, Second.
    change (2 ^ 63) with 9223372036854775808. lia.
Qed.

(** An observation with no reading at all, fetched five seconds after its
    timestamp: the gauge is set, to [float64(5)]. *)
Lemma cycle_timeSinceUpdate_saturating_witness :
  timeSinceUpdate
    (metrics (cycle defaultConfig
                (bareTick anyLabel (1000 * Second) (1005 * Second))
                (startMetrics anyLabel))) =
  float64_of_int64 5.
Proof.
  exact (proj2 (proj2 (proj2 (proj2
           (cycle_timeSinceUpdate_saturating anyLabel defaultConfig
              (bareTick anyLabel (1000 * Second) (1005 * Second))
              (startMetrics anyLabel)
              (bareObservation anyLabel (1000 * Second)) "{}" eq_refl))))
           5 ltac:(lia) eq_refl).
Defined.

(** A response without timestamp decodes to the zero time.  Fetched on
    October 31, 2026, it is 63929001600 seconds old, and the gauge is set to
    the seconds of the greatest duration, which is below 9223372037. *)
Lemma timeSinceUpdate_zero_timestamp :
  someNow - zeroTime = 63929001600 * Second /\
  timeSinceUpdate
    (metrics (cycle defaultConfig (bareTick anyLabel zeroTime someNow)
                (startMetrics anyLabel))) = Seconds maxDuration /\
  PrimFloat.ltb
    (timeSinceUpdate
       (metrics (cycle defaultConfig (bareTick anyLabel zeroTime someNow)
                   (startMetrics anyLabel))))
    (float64_of_int64 9223372037) = true /\
  PrimFloat.ltb (float64_of_int64 9223372037)
    (Seconds (someNow - zeroTime)) = true /\
  Seconds (someNow - zeroTime) = float64_of_int64 63929001600.
Proof. repeat split; vm_compute; reflexivity. Qed.

End ElapsedTime.
